(** * deanonymizer.py: a shallow embedding and its verified properties

    The script reverses an anonymization step: it resolves which identity a
    private key belongs to, unwraps a hybrid-encrypted placeholder mapping
    and substitutes the placeholders back into the text.

    Layout of the development:
    - [PyStr]: Python [str] values and the [str.replace] method;
    - [Py]: exceptions, JSON values, paths, the trace of I/O events;
    - [Deanonymizer]: the functions of [deanonymizer.py], over an abstract
      [Platform] (file system, PEM parsing, base64, RSA-OAEP, AES-CFB, JSON);
    - [Fixture], [Fixture2]: concrete platforms, used to run the functions;
    - the theorems. *)

From Stdlib Require Import ZArith Ascii String List Lia Permutation.
From stdpp Require Import base tactics option list strings pretty gmap.

(* ===================================================================== *)
(** * Python strings *)
(* ===================================================================== *)

Module PyStr.

(** A Python [str] is a finite sequence of characters (code points).  It is
    modelled by the [string] of its UTF-8 encoding, which is also how a
    string literal of this file is read: a character is a leading byte
    followed by its continuation bytes (a lone surrogate, which a [str]
    may hold, is its three bytes).  [s +:+ t] is concatenation.  Comparing,
    searching and replacing a non-empty pattern go byte by byte, which on
    encodings is the same as character by character; what counts or
    separates characters ([chars], [len], the empty pattern of [replace])
    goes by the boundaries between characters. *)

(** A continuation byte, [10xxxxxx]. *)
Definition is_continuation (c : ascii) : bool :=
  match c with
  | Ascii _ _ _ _ _ _ b6 b7 => b7 && negb b6
  end.

(** The text is empty or begins with the first byte of a character. *)
Definition at_boundary (s : string) : bool :=
  match s with
  | "" => true
  | String c _ => negb (is_continuation c)
  end.

(** [list(s)]: the characters of a text, in order. *)
Fixpoint chars (s : string) : list string :=
  match s with
  | "" => []
  | String c s' =>
      if at_boundary s' then String c "" :: chars s'
      else match chars s' with
           | u :: rest => String c u :: rest
           | [] => [String c ""]
           end
  end.

(** [len(s)] *)
Definition len (s : string) : nat := length (chars s).

(** [s.startswith(p)] *)
Fixpoint startswith (s p : string) : bool :=
  match p, s with
  | "", _ => true
  | String _ _, "" => false
  | String a p', String b s' => Ascii.eqb a b && startswith s' p'
  end.

(** [p in s] for two strings: [p] occurs in [s] as a contiguous block. *)
Fixpoint contains (s p : string) : bool :=
  startswith s p ||
  match s with
  | "" => false
  | String _ s' => contains s' p
  end.

(** The first [n] bytes of the encoding removed. *)
Fixpoint drop (n : nat) (s : string) : string :=
  match n, s with
  | O, _ => s
  | S _, "" => ""
  | S k, String _ s' => drop k s'
  end.

(** [new] after every character of [s]. *)
Fixpoint spread (new s : string) : string :=
  match s with
  | "" => ""
  | String c s' =>
      String c ((if at_boundary s' then new else "") +:+ spread new s')
  end.

(** [s.replace("", new)]: [new] is inserted before every character and
    after the last one. *)
Definition interleave (new s : string) : string := new +:+ spread new s.

(** [s.replace(old, new)] for a non-empty [old]: a left-to-right scan.
    [skip] counts the bytes of a matched occurrence of [old] that are still
    to be stepped over; at [skip = 0] the scan is between occurrences and
    tests whether [old] starts at the current position. *)
Fixpoint replace_scan (old new : string) (skip : nat) (s : string) : string :=
  match s with
  | "" => ""
  | String c s' =>
      match skip with
      | S k => replace_scan old new k s'
      | O =>
          if startswith s old
          then new +:+ replace_scan old new (String.length old - 1) s'
          else String c (replace_scan old new 0 s')
      end
  end.

(** [s.replace(old, new)] *)
Definition replace (s old new : string) : string :=
  match old with
  | "" => interleave new s
  | String _ _ => replace_scan old new 0 s
  end.

(** [sep.join(parts)] *)
Fixpoint join (sep : string) (parts : list string) : string :=
  match parts with
  | [] => ""
  | [u] => u
  | u :: rest => u +:+ sep +:+ join sep rest
  end.

(** [s.split(sep)] for a separator of one character. *)
Fixpoint split (sep : ascii) (s : string) : list string :=
  match s with
  | "" => [""]
  | String c s' =>
      if Ascii.eqb c sep then "" :: split sep s'
      else match split sep s' with
           | u :: rest => String c u :: rest
           | [] => [String c ""]
           end
  end.

(** [s.endswith(p)] *)
Fixpoint endswith (s p : string) : bool :=
  String.eqb s p ||
  match s with
  | "" => false
  | String _ s' => endswith s' p
  end.

(** Declarative counterparts used in statements. *)
Definition is_prefix (p s : string) : Prop := exists r, s = p +:+ r.
Definition is_suffix (p s : string) : Prop := exists l, s = l +:+ p.
Definition occurs (p s : string) : Prop := exists l r, s = l +:+ p +:+ r.

(** [p] and [o] overlap when they can be laid over one another so that
    they share at least one position of a common text: one occurs inside
    the other, or a non-empty end of one is a beginning of the other. *)
Definition overlap (p o : string) : Prop :=
  occurs p o \/ occurs o p \/
  exists w, w <> "" /\
    ((is_suffix w p /\ is_prefix w o) \/ (is_suffix w o /\ is_prefix w p)).

End PyStr.

(* ===================================================================== *)
(** * Python values, exceptions and effects *)
(* ===================================================================== *)

Module Py.
Import PyStr.

(** ** Exceptions

    An exception is its class name and the message printed by [str(e)].
    Every exception modelled here derives from [Exception] and is therefore
    caught by [except Exception]. *)
Record exn : Type := Exn { exn_class : string; exn_msg : string }.

Definition ValueError (msg : string) : exn := Exn "ValueError" msg.
Definition TypeError (msg : string) : exn := Exn "TypeError" msg.
Definition AttributeError (msg : string) : exn := Exn "AttributeError" msg.
(** [str(KeyError(k))] is [repr(k)]. *)
Definition KeyError (key : string) : exn := Exn "KeyError" ("'" +:+ key +:+ "'").

Global Instance exn_eq_dec : EqDecision exn.
Proof. solve_decision. Defined.

(** ** Results of computations that may raise *)
Inductive result (A : Type) : Type :=
  | Ok (a : A)
  | Raise (e : exn).
Global Arguments Ok {A} a.
Global Arguments Raise {A} e.

Global Instance result_ret : MRet result := fun A a => Ok a.
Global Instance result_bind : MBind result := fun A B f m =>
  match m with
  | Ok a => f a
  | Raise e => Raise e
  end.

(** ** Values produced by [json.load] / [json.loads] *)
#[warnings="-register-all"]
Inductive pyval : Type :=
  | PNone
  | PBool (b : bool)
  | PInt (n : Z)
  | PFloat (literal : string)
  | PStr (s : string)
  | PList (items : list pyval)
  | PDict (items : list (string * pyval)).

Definition type_name (v : pyval) : string :=
  match v with
  | PNone => "NoneType"
  | PBool _ => "bool"
  | PInt _ => "int"
  | PFloat _ => "float"
  | PStr _ => "str"
  | PList _ => "list"
  | PDict _ => "dict"
  end.

(** How the message of a rejected argument names the value: [None] by
    itself, any other value by its type. *)
Definition arg_name (v : pyval) : string :=
  match v with
  | PNone => "None"
  | _ => type_name v
  end.

(** The value bound to [key] in the items of a [dict]. *)
Fixpoint dict_get (key : string) (items : list (string * pyval)) : option pyval :=
  match items with
  | [] => None
  | (k, v) :: rest => if String.eqb k key then Some v else dict_get key rest
  end.

(** [v[key]] for a string [key]. *)
Definition subscript (v : pyval) (key : string) : result pyval :=
  match v with
  | PDict items =>
      match dict_get key items with
      | Some x => Ok x
      | None => Raise (KeyError key)
      end
  | PList _ => Raise (TypeError "list indices must be integers or slices, not str")
  | PStr _ => Raise (TypeError "string indices must be integers, not 'str'")
  | _ => Raise (TypeError ("'" +:+ type_name v +:+ "' object is not subscriptable"))
  end.

Definition is_str (s : string) (v : pyval) : bool :=
  match v with
  | PStr s' => String.eqb s' s
  | _ => false
  end.

(** [key in v] for a string [key]: key membership for a [dict], element
    membership for a [list], substring test for a [str]. *)
Definition py_in (key : string) (v : pyval) : result bool :=
  match v with
  | PDict items => Ok (bool_decide (is_Some (dict_get key items)))
  | PList items => Ok (existsb (is_str key) items)
  | PStr s => Ok (contains s key)
  | _ => Raise (TypeError ("argument of type '" +:+ type_name v +:+ "' is not iterable"))
  end.

(** [list(iter(v))] *)
Definition py_iter (v : pyval) : result (list pyval) :=
  match v with
  | PList items => Ok items
  | PDict items => Ok (map (fun kv => PStr (fst kv)) items)
  | PStr s => Ok (map PStr (chars s))
  | _ => Raise (TypeError ("'" +:+ type_name v +:+ "' object is not iterable"))
  end.

(** [a, b = v] *)
Definition unpack_pair (v : pyval) : result (pyval * pyval) :=
  match py_iter v with
  | Raise _ =>
      Raise (TypeError ("cannot unpack non-iterable " +:+ type_name v +:+ " object"))
  | Ok [a; b] => Ok (a, b)
  | Ok [] => Raise (ValueError "not enough values to unpack (expected 2, got 0)")
  | Ok [_] => Raise (ValueError "not enough values to unpack (expected 2, got 1)")
  | Ok _ => Raise (ValueError "too many values to unpack (expected 2)")
  end.

(** [v.replace(old, new)] *)
Definition replace_method (v old new : pyval) : result pyval :=
  match v with
  | PStr s =>
      match old, new with
      | PStr o, PStr n => Ok (PStr (replace s o n))
      | PStr _, _ =>
          Raise (TypeError ("replace() argument 2 must be str, not " +:+ arg_name new))
      | _, _ =>
          Raise (TypeError ("replace() argument 1 must be str, not " +:+ arg_name old))
      end
  | _ =>
      Raise (AttributeError ("'" +:+ type_name v +:+ "' object has no attribute 'replace'"))
  end.

Definition bytes : Type := list Byte.byte.

(** ** Paths

    A [pathlib.Path] as the script uses it: its string form, [.stem] and
    [.suffix]. *)
Record Path : Type := MkPath { path_str : string; stem : string; suffix : string }.

Global Instance Path_eq_dec : EqDecision Path.
Proof. solve_decision. Defined.

(** [posixpath.join(path, name)] *)
Definition posix_join (path name : string) : string :=
  if startswith name "/" then name
  else if String.eqb path "" || endswith path "/" then path +:+ name
  else path +:+ "/" +:+ name.

(** [posixpath.splitroot(p)]: the root and what follows it.  Exactly two
    leading slashes are a root of their own. *)
Definition splitroot (p : string) : string * string :=
  match p with
  | String "/" (String "/" (String "/" _ as rest)) => ("/", String "/" rest)
  | String "/" (String "/" rest) => ("//", rest)
  | String "/" rest => ("/", rest)
  | _ => ("", p)
  end.

(** A component that [pathlib] keeps: neither empty nor ["."]. *)
Definition is_path_part (x : string) : bool :=
  negb (String.eqb x "") && negb (String.eqb x ".").

(** [str(PurePosixPath(p))]: the root, then the components that are kept,
    joined by single slashes; ["."] when nothing is left. *)
Definition path_text (p : string) : string :=
  let '(root, rel) := splitroot p in
  let text := root +:+ join "/" (List.filter is_path_part (split "/" rel)) in
  if String.eqb text "" then "." else text.

(** [str(Path(folder) / name)], with the paths of a POSIX system. *)
Definition path_join (folder name : string) : string :=
  path_text (posix_join folder name).

(** ** Effects

    The script's observable actions, in program order.  Reads record the
    call; [EvOpenWrite] and [EvWrite] record an action that took place. *)
Inductive event : Type :=
  | EvMakedirs (path : string)          (* os.makedirs(path, exist_ok=True) *)
  | EvRglob (folder pattern : string)   (* Path(folder).rglob(pattern) *)
  | EvLoadPrivateKey (path : string)    (* load_private_key(path) *)
  | EvLoadPublicKey (path : string)     (* open + load_pem_public_key *)
  | EvRead (path : string)              (* open(path, "r") and read *)
  | EvExists (path : string)            (* path.exists() *)
  | EvOpenWrite (path : string)         (* open(path, "w"): created or truncated *)
  | EvWrite (path text : string)        (* output.write(text) *)
  | EvPrint (line : string).            (* print(line) *)

Global Instance event_eq_dec : EqDecision event.
Proof. solve_decision. Defined.

(** A computation with effects: the events it produced and how it ended. *)
Record M (A : Type) : Type := MkM { trace : list event; outcome : result A }.
Global Arguments MkM {A} trace outcome.
Global Arguments trace {A} m.
Global Arguments outcome {A} m.

Global Instance M_ret : MRet M := fun A a => MkM [] (Ok a).
Global Instance M_bind : MBind M := fun A B f m =>
  match outcome m with
  | Ok a => MkM (trace m ++ trace (f a)) (outcome (f a))
  | Raise e => MkM (trace m) (Raise e)
  end.

Definition emit (ev : event) : M unit := MkM [ev] (Ok tt).
Definition lift {A} (r : result A) : M A := MkM [] r.
Definition raise {A} (e : exn) : M A := MkM [] (Raise e).
Definition print (line : string) : M unit := emit (EvPrint line).

(** [try: body  except Exception as e: handler(e)] *)
Definition try_except {A} (body : M A) (handler : exn -> M A) : M A :=
  match outcome body with
  | Ok a => body
  | Raise e => MkM (trace body ++ trace (handler e)) (outcome (handler e))
  end.

(** ** What the events leave behind *)

(** Completed writes [(path, text)], in order. *)
Definition saved (t : list event) : list (string * string) :=
  omap (fun ev => match ev with EvWrite p text => Some (p, text) | _ => None end) t.

(** Printed lines, in order. *)
Definition printed (t : list event) : list string :=
  omap (fun ev => match ev with EvPrint line => Some line | _ => None end) t.

(** Content of the files written, after the events. *)
Definition apply_event (fs : gmap string string) (ev : event) : gmap string string :=
  match ev with
  | EvOpenWrite p => <[p := ""]> fs
  | EvWrite p text => <[p := default "" (fs !! p) +:+ text]> fs
  | _ => fs
  end.
Definition store (t : list event) : gmap string string :=
  foldl apply_event ∅ t.

(** Calls of [load_private_key], and scans of the public-key catalog (one
    per call of [infer_user_id]). *)
Definition is_key_load (ev : event) : bool :=
  match ev with EvLoadPrivateKey _ => true | _ => false end.
Definition is_catalog_scan (ev : event) : bool :=
  match ev with EvRglob _ pattern => String.eqb pattern "*.pem" | _ => false end.

(** A line printed by the [except] clause of the batch loop. *)
Definition is_error_line (line : string) : bool :=
  startswith line "Error processing ".
(** Neither a completed write nor a printed line. *)
Definition is_quiet (ev : event) : bool :=
  match ev with EvWrite _ _ | EvPrint _ => false | _ => true end.
(** The events of the body of the batch loop's [try], for a record whose
    output file is [out]. *)
Definition is_record_event (out : string) (ev : event) : bool :=
  match ev with
  | EvRead _ | EvExists _ => true
  | EvOpenWrite path | EvWrite path _ => String.eqb path out
  | EvPrint line => negb (is_error_line line)
  | _ => false
  end.
(** The event creates, truncates or extends the file [path]. *)
Definition touches (path : string) (ev : event) : bool :=
  match ev with
  | EvOpenWrite q | EvWrite q _ => String.eqb q path
  | _ => false
  end.

Definition reported_errors (t : list event) : list string :=
  List.filter is_error_line (printed t).
Definition key_loads (t : list event) : nat := length (List.filter is_key_load t).
Definition catalog_scans (t : list event) : nat :=
  length (List.filter is_catalog_scan t).

End Py.

(* ===================================================================== *)
(** * The environment of the script *)
(* ===================================================================== *)

Module Env.
Import Py.

(** What [deanonymizer.py] imports and the file system it runs on.  These
    are not code of the repository; every function of the script is
    parametrised by them.  A library call either returns or raises.  The
    platform is the world as a run finds it.  What the run writes is
    recorded as events ([EvOpenWrite], [EvWrite]), and an iteration of the
    batch loop reads from the platform as the earlier iterations left it
    ([written_over]). *)
Record Platform : Type := {
  PrivateKey : Type;
  PublicKey : Type;
  (* os, pathlib, open; a listing is the one the run gets when it asks *)
  makedirs : string -> result unit;
  rglob : string -> string -> list Path;
  read_file : string -> result string;
  path_exists : string -> bool;
  open_for_writing : string -> result unit;
  (* cryptography.hazmat.primitives.serialization *)
  load_pem_private_key : string -> result PrivateKey;
  load_pem_public_key : string -> result PublicKey;
  (* key.private_numbers().public_numbers.n, key.public_numbers().n *)
  private_modulus : PrivateKey -> result Z;
  public_modulus : PublicKey -> result Z;
  (* base64.b64decode *)
  b64decode : string -> result bytes;
  (* private_key.decrypt(ciphertext, OAEP(MGF1(SHA256), SHA256, None)) *)
  rsa_oaep_decrypt : PrivateKey -> bytes -> result bytes;
  (* Cipher(AES(key), CFB(iv)).decryptor(): update(data) + finalize() *)
  aes_cfb_decrypt : bytes -> bytes -> bytes -> result bytes;
  (* bytes.decode() *)
  utf8_decode : bytes -> result string;
  (* the encoding of a text written to a file opened with encoding="utf-8":
     UnicodeEncodeError for a text that cannot be encoded (a lone
     surrogate) *)
  utf8_encode : string -> result bytes;
  (* json.loads *)
  json_loads : string -> result pyval
}.

(** A text as [open(path, "r")] hands it out: the line ends ["\r\n"] and
    ["\r"] are read as ["\n"]. *)
Fixpoint universal_newlines (s : string) : string :=
  match s with
  | String "013" (String "010" s') => String "010" (universal_newlines s')
  | String "013" s' => String "010" (universal_newlines s')
  | String c s' => String c (universal_newlines s')
  | "" => ""
  end.

(** The platform after the files [fs] have been written: a file of [fs]
    exists and is read with the text it was left with (on a POSIX system a
    text is written as it is), every other file is as before. *)
Definition written_over (fs : gmap string string) (P : Platform) : Platform := {|
  PrivateKey := PrivateKey P;
  PublicKey := PublicKey P;
  makedirs := makedirs P;
  rglob := rglob P;
  read_file := fun path =>
    match fs !! path with
    | Some content => Ok (universal_newlines content)
    | None => read_file P path
    end;
  path_exists := fun path =>
    match fs !! path with
    | Some _ => true
    | None => path_exists P path
    end;
  open_for_writing := open_for_writing P;
  load_pem_private_key := load_pem_private_key P;
  load_pem_public_key := load_pem_public_key P;
  private_modulus := private_modulus P;
  public_modulus := public_modulus P;
  b64decode := b64decode P;
  rsa_oaep_decrypt := rsa_oaep_decrypt P;
  aes_cfb_decrypt := aes_cfb_decrypt P;
  utf8_decode := utf8_decode P;
  utf8_encode := utf8_encode P;
  json_loads := json_loads P
|}.

End Env.

(* ===================================================================== *)
(** * deanonymizer.py *)
(* ===================================================================== *)

Module Deanonymizer.
Import PyStr Py Env.

(** ** [reconstruct_text], at the types of an entity mapping: a text and a
    sequence of (placeholder, original) pairs of strings. *)
Fixpoint reconstruct_text (anonymized_text : string)
    (entity_mapping : list (string * string)) : string :=
  match entity_mapping with
  | [] => anonymized_text
  | (placeholder, original) :: rest =>
      reconstruct_text (replace anonymized_text placeholder original) rest
  end.

(** ** [reconstruct_text], on the values the script passes to it: whatever
    [json.load] returned.  The loop unpacks each item and calls the
    [replace] method of the current text. *)
Fixpoint reconstruct_loop (anonymized_text : pyval) (items : list pyval)
    : result pyval :=
  match items with
  | [] => Ok anonymized_text
  | item :: rest =>
      '(placeholder, original) ← unpack_pair item;
      anonymized_text ← replace_method anonymized_text placeholder original;
      reconstruct_loop anonymized_text rest
  end.

Definition reconstruct_text_dyn (anonymized_text entity_mapping : pyval)
    : result pyval :=
  items ← py_iter entity_mapping;
  reconstruct_loop anonymized_text items.

(** An entity mapping as a JSON value: a list of two-element lists. *)
Definition mapping_val (entity_mapping : list (string * string)) : pyval :=
  PList (map (fun po => PList [PStr (fst po); PStr (snd po)]) entity_mapping).

Section WithPlatform.
Context (P : Platform).

(** ** [load_private_key] *)
Definition load_private_key (private_key_path : string) : M (PrivateKey P) :=
  emit (EvLoadPrivateKey private_key_path) ;;
  data ← lift (read_file P private_key_path);
  lift (load_pem_private_key P data).

(** ** [hybrid_decrypt] *)

(** [base64.b64decode(v)] on a JSON value. *)
Definition b64decode_val (v : pyval) : result bytes :=
  match v with
  | PStr s => b64decode P s
  | _ =>
      Raise (TypeError
        ("argument should be a bytes-like object or ASCII string, not '"
         +:+ type_name v +:+ "'"))
  end.

Definition missing_aes_key (user_id : string) : exn :=
  ValueError ("No encrypted AES key found for user ID: " +:+ user_id).

Definition hybrid_decrypt (encrypted_package : pyval)
    (private_key : PrivateKey P) (user_id : string) : result pyval :=
  keys ← subscript encrypted_package "encrypted_aes_keys";
  present ← py_in user_id keys;
  if negb present then Raise (missing_aes_key user_id) else
  keys ← subscript encrypted_package "encrypted_aes_keys";
  wrapped ← subscript keys user_id;
  encrypted_aes_key ← b64decode_val wrapped;
  aes_key ← rsa_oaep_decrypt P private_key encrypted_aes_key;
  iv_field ← subscript encrypted_package "iv";
  iv ← b64decode_val iv_field;
  data_field ← subscript encrypted_package "encrypted_data";
  encrypted_data ← b64decode_val data_field;
  decrypted_data ← aes_cfb_decrypt P aes_key iv encrypted_data;
  text ← utf8_decode P decrypted_data;
  json_loads P text.

(** The two stages of [hybrid_decrypt], lines 33-43 and 46-54. *)
Definition unwrap_aes_key (encrypted_package : pyval)
    (private_key : PrivateKey P) (user_id : string) : result bytes :=
  keys ← subscript encrypted_package "encrypted_aes_keys";
  wrapped ← subscript keys user_id;
  encrypted_aes_key ← b64decode_val wrapped;
  rsa_oaep_decrypt P private_key encrypted_aes_key.

Definition decrypt_payload (encrypted_package : pyval) (aes_key : bytes)
    : result pyval :=
  iv_field ← subscript encrypted_package "iv";
  iv ← b64decode_val iv_field;
  data_field ← subscript encrypted_package "encrypted_data";
  encrypted_data ← b64decode_val data_field;
  decrypted_data ← aes_cfb_decrypt P aes_key iv encrypted_data;
  text ← utf8_decode P decrypted_data;
  json_loads P text.

(** ** [infer_user_id] *)

Definition no_matching_public_key : exn :=
  ValueError "No matching public key found for the provided private key.".

(** [private_key.private_numbers().public_numbers.n
      == public_key.public_numbers().n] *)
Definition modulus_equal (private_key : PrivateKey P) (public_key : PublicKey P)
    : result bool :=
  n_private ← private_modulus P private_key;
  n_public ← public_modulus P public_key;
  Ok (Z.eqb n_private n_public).

(** The body of the [try] for one candidate; [except Exception: continue]
    turns a failure into "no match". *)
Definition try_public_key (private_key : PrivateKey P) (public_key_path : Path)
    : M bool :=
  try_except
    (emit (EvLoadPublicKey (path_str public_key_path)) ;;
     data ← lift (read_file P (path_str public_key_path));
     public_key ← lift (load_pem_public_key P data);
     lift (modulus_equal private_key public_key))
    (fun _ => mret false).

(** The [for] loop and the [raise] after it. *)
Fixpoint scan_public_keys (private_key : PrivateKey P) (paths : list Path)
    : M string :=
  match paths with
  | [] => raise no_matching_public_key
  | public_key_path :: rest =>
      found ← try_public_key private_key public_key_path;
      if found : bool then mret (stem public_key_path)
      else scan_public_keys private_key rest
  end.

Definition infer_user_id (private_key_path public_keys_folder : string)
    : M string :=
  private_key ← load_private_key private_key_path;
  emit (EvRglob public_keys_folder "*.pem") ;;
  scan_public_keys private_key (rglob P public_keys_folder "*.pem").

(** ** [process_response_files] *)

(** [json.load(open(path, "r", encoding="utf-8"))] *)
Definition load_json (path : string) : M pyval :=
  emit (EvRead path) ;;
  data ← lift (read_file P path);
  lift (json_loads P data).

(** [output.write(v)] accepts a [str] only. *)
Definition write_arg (v : pyval) : result string :=
  match v with
  | PStr s => Ok s
  | _ => Raise (TypeError ("write() argument must be str, not " +:+ arg_name v))
  end.

(** Line 128: the companion mapping file of a text record. *)
Definition mapping_file_of (output_folder : string) (response_file_path : Path)
    : string :=
  path_join output_folder (stem response_file_path +:+ "_processed.json").

(** Line 149: the output file of a response file. *)
Definition output_file_of (reconstructed_folder : string)
    (response_file_path : Path) : string :=
  path_join reconstructed_folder (stem response_file_path +:+ "_reconstructed.txt").

(** Lines 148-153: save the reconstructed text. *)
Definition save_reconstructed (reconstructed_folder : string)
    (response_file_path : Path) (reconstructed_text : pyval) : M unit :=
  let output_file := output_file_of reconstructed_folder response_file_path in
  lift (open_for_writing P output_file) ;;
  emit (EvOpenWrite output_file) ;;
  text ← lift (write_arg reconstructed_text);
  lift (utf8_encode P text) ;;
  emit (EvWrite output_file text) ;;
  print ("Reconstructed text saved to " +:+ output_file).

(** The body of the [try] for one response file, lines 109-153. *)
Definition process_record (output_folder reconstructed_folder : string)
    (private_key : PrivateKey P) (user_id : string) (response_file_path : Path)
    : M unit :=
  if String.eqb (suffix response_file_path) ".json" then
    data ← load_json (path_str response_file_path);
    anonymized_text ← lift (subscript data "anonymized_text");
    encrypted_mapping ← lift (subscript data "encrypted_mapping");
    entity_mapping ← lift (hybrid_decrypt encrypted_mapping private_key user_id);
    reconstructed_text ← lift (reconstruct_text_dyn anonymized_text entity_mapping);
    save_reconstructed reconstructed_folder response_file_path reconstructed_text
  else if String.eqb (suffix response_file_path) ".txt" then
    emit (EvRead (path_str response_file_path)) ;;
    reworked_text ← lift (read_file P (path_str response_file_path));
    let mapping_file_path := mapping_file_of output_folder response_file_path in
    emit (EvExists mapping_file_path) ;;
    if negb (path_exists P mapping_file_path) then
      print ("Mapping file not found for " +:+ path_str response_file_path
             +:+ ". Skipping...")
    else
      mapping_data ← load_json mapping_file_path;
      encrypted_mapping ← lift (subscript mapping_data "encrypted_mapping");
      entity_mapping ← lift (hybrid_decrypt encrypted_mapping private_key user_id);
      reconstructed_text ←
        lift (reconstruct_text_dyn (PStr reworked_text) entity_mapping);
      save_reconstructed reconstructed_folder response_file_path reconstructed_text
  else
    print ("Unsupported file type: " +:+ path_str response_file_path
           +:+ ". Skipping...").

Definition error_line (response_file_path : Path) (e : exn) : string :=
  "Error processing " +:+ path_str response_file_path +:+ ": " +:+ exn_msg e.

(** One iteration of the loop: the [try] and its [except Exception as e]. *)
Definition process_one (output_folder reconstructed_folder : string)
    (private_key : PrivateKey P) (user_id : string) (response_file_path : Path)
    : M unit :=
  try_except
    (process_record output_folder reconstructed_folder private_key user_id
       response_file_path)
    (fun e => print (error_line response_file_path e)).

End WithPlatform.

(** The loop of lines 107-155, entered when the run has written the files
    [fs]: an iteration runs on the platform with these files written over
    it, and the next one finds what it wrote as well. *)
Fixpoint process_records_from (P : Platform) (fs : gmap string string)
    (output_folder reconstructed_folder : string)
    (private_key : PrivateKey P) (user_id : string) (response_files : list Path)
    : M unit :=
  match response_files with
  | [] => mret tt
  | response_file_path :: rest =>
      let iteration :=
        process_one (written_over fs P) output_folder reconstructed_folder
          private_key user_id response_file_path in
      iteration ;;
      process_records_from P (foldl apply_event fs (trace iteration))
        output_folder reconstructed_folder private_key user_id rest
  end.

(** The loop as the run enters it: nothing written yet. *)
Definition process_records (P : Platform)
    (output_folder reconstructed_folder : string)
    (private_key : PrivateKey P) (user_id : string) (response_files : list Path)
    : M unit :=
  process_records_from P ∅ output_folder reconstructed_folder private_key
    user_id response_files.

Definition no_files_notice (response_folder : string) : string :=
  "No files found in the '" +:+ response_folder
  +:+ "' folder. Please check your input.".

Definition process_response_files (P : Platform)
    (response_folder output_folder reconstructed_folder
     private_key_path public_keys_folder : string) : M unit :=
  emit (EvMakedirs reconstructed_folder) ;;
  lift (makedirs P reconstructed_folder) ;;
  emit (EvRglob response_folder "*") ;;
  let response_files := rglob P response_folder "*" in
  match response_files with
  | [] => print (no_files_notice response_folder)
  | _ :: _ =>
      user_id ← infer_user_id P private_key_path public_keys_folder;
      private_key ← load_private_key P private_key_path;
      process_records P output_folder reconstructed_folder private_key user_id
        response_files
  end.

End Deanonymizer.

(* ===================================================================== *)
(** * A concrete platform *)
(* ===================================================================== *)

(** A small world on which the script can be run: two RSA identities
    ([alice], [bob]), one Ed25519 key, a file that is not a key, three
    response files.  The library functions are tabulated on the inputs that
    occur; on anything else they fail the way the library does. *)
Module Fixture.
Import PyStr Py Env Deanonymizer.

Inductive key : Type :=
  | RsaKey (n : Z)
  | Ed25519Key.

Definition alice_key : key := RsaKey 3233.
Definition bob_key : key := RsaKey 3127.

Definition lookup_file (path : string) (files : list (string * string))
    : option string :=
  snd <$> List.find (fun kv => String.eqb (fst kv) path) files.

Definition files : list (string * string) :=
  [ ("private_key.pem", "PRIVATE KEY alice");
    ("bob_private_key.pem", "PRIVATE KEY bob");
    ("public_keys/bob.pem", "PUBLIC KEY bob");
    ("public_keys/notes.pem", "not a key");
    ("public_keys/carol.pem", "PUBLIC KEY carol");
    ("public_keys/alice.pem", "PUBLIC KEY alice");
    ("response/r1.json", "json:r1");
    ("response/r2.json", "json:r2");
    ("response/r3.txt", "Dear PERSON_1 of ORG_1");
    ("output/r3_processed.json", "json:m3") ].

Definition r1 : Path := MkPath "response/r1.json" "r1" ".json".
Definition r2 : Path := MkPath "response/r2.json" "r2" ".json".
Definition r3 : Path := MkPath "response/r3.txt" "r3" ".txt".

Definition bob_pem : Path := MkPath "public_keys/bob.pem" "bob" ".pem".
Definition notes_pem : Path := MkPath "public_keys/notes.pem" "notes" ".pem".
Definition carol_pem : Path := MkPath "public_keys/carol.pem" "carol" ".pem".
Definition alice_pem : Path := MkPath "public_keys/alice.pem" "alice" ".pem".

Definition fx_rglob (folder pattern : string) : list Path :=
  if String.eqb folder "response" && String.eqb pattern "*" then [r1; r2; r3]
  else if String.eqb folder "public_keys" && String.eqb pattern "*.pem"
  then [bob_pem; notes_pem; carol_pem; alice_pem]
  else [].

(** [os.makedirs(path, exist_ok=True)] fails for the empty path and where
    a file is in the way. *)
Definition fx_makedirs (path : string) : result unit :=
  if String.eqb path "" then
    Raise (Exn "FileNotFoundError" "[Errno 2] No such file or directory: ''")
  else
    match lookup_file path files with
    | Some _ =>
        Raise (Exn "FileExistsError" ("[Errno 17] File exists: '" +:+ path +:+ "'"))
    | None => Ok tt
    end.

Definition fx_read_file (path : string) : result string :=
  match lookup_file path files with
  | Some content => Ok content
  | None =>
      Raise (Exn "FileNotFoundError"
               ("[Errno 2] No such file or directory: '" +:+ path +:+ "'"))
  end.

Definition fx_load_pem_private_key (data : string) : result key :=
  if String.eqb data "PRIVATE KEY alice" then Ok alice_key
  else if String.eqb data "PRIVATE KEY bob" then Ok bob_key
  else Raise (ValueError "Could not deserialize key data.").

Definition fx_load_pem_public_key (data : string) : result key :=
  if String.eqb data "PUBLIC KEY alice" then Ok alice_key
  else if String.eqb data "PUBLIC KEY bob" then Ok bob_key
  else if String.eqb data "PUBLIC KEY carol" then Ok Ed25519Key
  else Raise (ValueError "Unable to load PEM file.").

Definition fx_private_modulus (k : key) : result Z :=
  match k with
  | RsaKey n => Ok n
  | Ed25519Key =>
      Raise (AttributeError
        "'Ed25519PrivateKey' object has no attribute 'private_numbers'")
  end.

Definition fx_public_modulus (k : key) : result Z :=
  match k with
  | RsaKey n => Ok n
  | Ed25519Key =>
      Raise (AttributeError
        "'Ed25519PublicKey' object has no attribute 'public_numbers'")
  end.

Definition b (s : string) : bytes := list_byte_of_string s.
Definition bytes_eqb (x : bytes) (s : string) : bool :=
  String.eqb (string_of_list_byte x) s.

(** base64 of ALICE, BOB, IV, DATA and JUNK. *)
Definition fx_b64decode (s : string) : result bytes :=
  if String.eqb s "QUxJQ0U=" then Ok (b "ALICE")
  else if String.eqb s "Qk9C" then Ok (b "BOB")
  else if String.eqb s "SVY=" then Ok (b "IV")
  else if String.eqb s "REFUQQ==" then Ok (b "DATA")
  else if String.eqb s "SlVOSw==" then Ok (b "JUNK")
  else Raise (Exn "binascii.Error" "Incorrect padding").

(** ALICE is the AES key [K1] wrapped for alice, BOB the same key wrapped
    for bob; any other pair of key and ciphertext fails the OAEP check. *)
Definition fx_rsa_oaep_decrypt (k : key) (ct : bytes) : result bytes :=
  match k with
  | RsaKey 3233 => if bytes_eqb ct "ALICE" then Ok (b "K1")
                   else Raise (ValueError "Decryption failed")
  | RsaKey 3127 => if bytes_eqb ct "BOB" then Ok (b "K1")
                   else Raise (ValueError "Decryption failed")
  | _ => Raise (ValueError "Decryption failed")
  end.

(** DATA under K1 and IV is the mapping document; CFB never fails, any
    other input decrypts to bytes that are not UTF-8. *)
Definition fx_aes_cfb_decrypt (k iv data : bytes) : result bytes :=
  if bytes_eqb k "K1" && bytes_eqb iv "IV" && bytes_eqb data "DATA"
  then Ok (b "json:mapping")
  else Ok [Byte.xff].

Definition fx_utf8_decode (x : bytes) : result string :=
  if forallb (fun c => Byte.to_N c <? 128)%N x then Ok (string_of_list_byte x)
  else Raise (Exn "UnicodeDecodeError"
                "'utf-8' codec can't decode byte 0xff in position 0: invalid start byte").

(** A surrogate, U+D800 to U+DFFF: the bytes 237, 160-191, 128-191. *)
Definition is_surrogate (c : string) : bool :=
  match c with
  | String "237" (String c2 _) => 160 <=? nat_of_ascii c2
  | _ => false
  end.

Definition hex_digit (n : nat) : string :=
  String (nth n (list_ascii_of_string "0123456789abcdef") "0"%char) "".

(** The code point of a surrogate, in four hexadecimal digits. *)
Definition surrogate_hex (c : string) : string :=
  match c with
  | String _ (String c2 (String c3 _)) =>
      let n2 := nat_of_ascii c2 - 128 in
      let n3 := nat_of_ascii c3 - 128 in
      "d" +:+ hex_digit (n2 / 4) +:+ hex_digit ((n2 mod 4) * 4 + n3 / 16)
      +:+ hex_digit (n3 mod 16)
  | _ => ""
  end.

(** The surrogates at the head of a list of characters. *)
Fixpoint surrogate_run (cs : list string) : nat :=
  match cs with
  | c :: rest => if is_surrogate c then S (surrogate_run rest) else 0
  | [] => 0
  end.

(** The first surrogate at or after position [pos]: its position, itself,
    and how many surrogates follow it directly. *)
Fixpoint first_surrogate (cs : list string) (pos : nat)
    : option (nat * string * nat) :=
  match cs with
  | [] => None
  | c :: rest =>
      if is_surrogate c then Some (pos, c, surrogate_run rest)
      else first_surrogate rest (S pos)
  end.

(** [text.encode("utf-8")]: a text with a surrogate cannot be encoded. *)
Definition fx_utf8_encode (s : string) : result bytes :=
  match first_surrogate (chars s) 0 with
  | None => Ok (b s)
  | Some (pos, c, O) =>
      Raise (Exn "UnicodeEncodeError"
               ("'utf-8' codec can't encode character '\u" +:+ surrogate_hex c
                +:+ "' in position " +:+ pretty pos
                +:+ ": surrogates not allowed"))
  | Some (pos, _, more) =>
      Raise (Exn "UnicodeEncodeError"
               ("'utf-8' codec can't encode characters in position "
                +:+ pretty pos +:+ "-" +:+ pretty (pos + more)
                +:+ ": surrogates not allowed"))
  end.

Definition envelope (alice_wrapped data : string) : pyval :=
  PDict [ ("encrypted_aes_keys",
           PDict [("alice", PStr alice_wrapped); ("bob", PStr "Qk9C")]);
          ("iv", PStr "SVY=");
          ("encrypted_data", PStr data) ].

Definition good_envelope : pyval := envelope "QUxJQ0U=" "REFUQQ==".
(** alice's slot holds a key wrapped for somebody else. *)
Definition wrong_key_envelope : pyval := envelope "Qk9C" "REFUQQ==".
(** the payload is damaged. *)
Definition corrupt_envelope : pyval := envelope "QUxJQ0U=" "SlVOSw==".
(** malformed base64 everywhere, and no slot for alice. *)
Definition foreign_envelope : pyval :=
  PDict [ ("encrypted_aes_keys", PDict [("bob", PStr "Qk9C")]);
          ("iv", PStr "%%%");
          ("encrypted_data", PInt 7) ].

Definition the_mapping : list (string * string) :=
  [("PERSON_1", "Alice"); ("ORG_1", "Acme")].

Definition fx_json_loads (text : string) : result pyval :=
  if String.eqb text "json:mapping" then Ok (mapping_val the_mapping)
  else if String.eqb text "json:r1" then
    Ok (PDict [ ("anonymized_text", PStr "Hello PERSON_1, from ORG_1");
                ("encrypted_mapping", good_envelope) ])
  else if String.eqb text "json:r2" then
    Ok (PDict [ ("anonymized_text", PStr "Bye PERSON_1");
                ("encrypted_mapping", corrupt_envelope) ])
  else if String.eqb text "json:m3" then
    Ok (PDict [ ("encrypted_mapping", good_envelope) ])
  else Raise (Exn "JSONDecodeError" "Expecting value: line 1 column 1 (char 0)").

Definition platform : Platform := {|
  PrivateKey := key;
  PublicKey := key;
  makedirs := fx_makedirs;
  rglob := fx_rglob;
  read_file := fx_read_file;
  path_exists := fun path => bool_decide (is_Some (lookup_file path files));
  open_for_writing := fun _ => Ok tt;
  load_pem_private_key := fx_load_pem_private_key;
  load_pem_public_key := fx_load_pem_public_key;
  private_modulus := fx_private_modulus;
  public_modulus := fx_public_modulus;
  b64decode := fx_b64decode;
  rsa_oaep_decrypt := fx_rsa_oaep_decrypt;
  aes_cfb_decrypt := fx_aes_cfb_decrypt;
  utf8_decode := fx_utf8_decode;
  utf8_encode := fx_utf8_encode;
  json_loads := fx_json_loads
|}.

End Fixture.

(* ===================================================================== *)
(** * Vocabulary of the statements *)
(* ===================================================================== *)

Module Props.
Import PyStr Py Env Deanonymizer.

Definition placeholders (m : list (string * string)) : list string := map fst m.
Definition originals (m : list (string * string)) : list string := map snd m.

(** [q] cannot run into a copy of [new]: no non-empty end of [q] begins
    [new], and [new] does not occur in [q]. *)
Definition clear_of (new q : string) : Prop :=
  (forall w, w <> "" -> is_suffix w q -> ~ is_prefix w new) /\ ~ occurs new q.

(** The non-empty suffixes of a text, longest first. *)
Fixpoint suffixes (s : string) : list string :=
  match s with
  | "" => []
  | String _ s' => s :: suffixes s'
  end.

(** A non-empty end of [p] begins [o]. *)
Definition border (p o : string) : bool :=
  existsb (fun w => startswith o w) (suffixes p).

(** Decision procedure for [overlap]. *)
Definition overlapb (p o : string) : bool :=
  contains o p || contains p o || border p o || border o p.

(** No placeholder of the mapping overlaps an original value of it. *)
Definition no_overlap (m : list (string * string)) : Prop :=
  forall p o, In p (placeholders m) -> In o (originals m) -> ~ overlap p o.
Definition no_overlapb (m : list (string * string)) : bool :=
  forallb (fun p => forallb (fun o => negb (overlapb p o)) (originals m))
          (placeholders m).

(** [result] is [t] with the occurrences of [p] that cut it into [segs]
    replaced by [o]; no segment contains [p]. *)
Definition replaces_all (t p o result : string) : Prop :=
  exists segs, t = join p segs /\ result = join o segs /\
               Forall (fun u => ~ occurs p u) segs.

(** The candidate file holds a public key whose modulus is the private
    key's. *)
Definition candidate_matches (P : Platform) (private_key : PrivateKey P)
    (candidate : Path) : Prop :=
  exists data public_key n,
    read_file P (path_str candidate) = Ok data /\
    load_pem_public_key P data = Ok public_key /\
    private_modulus P private_key = Ok n /\
    public_modulus P public_key = Ok n.

(** The envelope has a slot for the identity. *)
Definition has_slot (encrypted_package : pyval) (user_id : string)
    (wrapped : pyval) : Prop :=
  exists keys, subscript encrypted_package "encrypted_aes_keys" = Ok (PDict keys) /\
               dict_get user_id keys = Some wrapped.

(** The envelope's [encrypted_aes_keys] is a mapping without the identity. *)
Definition lacks_slot (encrypted_package : pyval) (user_id : string) : Prop :=
  exists keys, subscript encrypted_package "encrypted_aes_keys" = Ok (PDict keys) /\
               dict_get user_id keys = None.

(** Every failure of [hybrid_decrypt] for an identity that has a slot is
    one and the same error. *)
Definition uniform_decryption_failure (P : Platform) : Prop :=
  exists decryption_error,
    forall encrypted_package private_key user_id wrapped e,
      has_slot encrypted_package user_id wrapped ->
      hybrid_decrypt P encrypted_package private_key user_id = Raise e ->
      e = decryption_error.


(** The body of the loop for [r], entered after the records [earlier]. *)
Definition record_after (P : Platform) (output_folder reconstructed_folder : string)
    (private_key : PrivateKey P) (user_id : string) (earlier : list Path)
    (r : Path) : M unit :=
  process_record
    (written_over
       (store (trace (process_records P output_folder reconstructed_folder
                        private_key user_id earlier))) P)
    output_folder reconstructed_folder private_key user_id r.


End Props.

(* ===================================================================== *)
(** * More of the platform and of the vocabulary *)
(* ===================================================================== *)

(** The fixture with a few more files: an Ed25519 private key, a record
    whose text is a number and whose mapping is empty, a copy of it named
    [r1.json] in a subfolder, a record whose text is a lone surrogate, and
    a text record with the base name of [r1.json]. *)
Module Fixture2.
Import PyStr Py Env Deanonymizer Fixture.

Definition more_files : list (string * string) :=
  [ ("ed_private_key.pem", "PRIVATE KEY carol");
    ("response/r4.json", "json:r4");
    ("response/sub/r1.json", "json:r4");
    ("response/r5.json", "json:r5");
    ("response/r1.txt", "Dear PERSON_1");
    ("output/r1_processed.json", "json:m3") ].

Definition r1_txt : Path := MkPath "response/r1.txt" "r1" ".txt".
Definition sub_r1 : Path := MkPath "response/sub/r1.json" "r1" ".json".

(** U+D800 by itself, as the JSON text ["\ud800"] is loaded. *)
Definition lone_surrogate : string := String "237" (String "160" (String "128" "")).

Definition fx2_read_file (path : string) : result string :=
  match lookup_file path more_files with
  | Some content => Ok content
  | None => fx_read_file path
  end.

Definition fx2_load_pem_private_key (data : string) : result key :=
  if String.eqb data "PRIVATE KEY carol" then Ok Ed25519Key
  else fx_load_pem_private_key data.

(** base64 of EMPTY. *)
Definition fx2_b64decode (s : string) : result bytes :=
  if String.eqb s "RU1QVFk=" then Ok (b "EMPTY") else fx_b64decode s.

(** EMPTY under K1 and IV is the empty mapping document. *)
Definition fx2_aes_cfb_decrypt (k iv data : bytes) : result bytes :=
  if bytes_eqb k "K1" && bytes_eqb iv "IV" && bytes_eqb data "EMPTY"
  then Ok (b "json:empty")
  else fx_aes_cfb_decrypt k iv data.

Definition fx2_json_loads (text : string) : result pyval :=
  if String.eqb text "json:empty" then Ok (PList [])
  else if String.eqb text "json:r4" then
    Ok (PDict [ ("anonymized_text", PInt 5);
                ("encrypted_mapping", envelope "QUxJQ0U=" "RU1QVFk=") ])
  else if String.eqb text "json:r5" then
    Ok (PDict [ ("anonymized_text", PStr lone_surrogate);
                ("encrypted_mapping", envelope "QUxJQ0U=" "RU1QVFk=") ])
  else fx_json_loads text.

Definition platform2 : Platform := {|
  PrivateKey := key;
  PublicKey := key;
  makedirs := fx_makedirs;
  rglob := fx_rglob;
  read_file := fx2_read_file;
  path_exists := fun path =>
    bool_decide (is_Some (lookup_file path (more_files ++ files)));
  open_for_writing := fun _ => Ok tt;
  load_pem_private_key := fx2_load_pem_private_key;
  load_pem_public_key := fx_load_pem_public_key;
  private_modulus := fx_private_modulus;
  public_modulus := fx_public_modulus;
  b64decode := fx2_b64decode;
  rsa_oaep_decrypt := fx_rsa_oaep_decrypt;
  aes_cfb_decrypt := fx2_aes_cfb_decrypt;
  utf8_decode := fx_utf8_decode;
  utf8_encode := fx_utf8_encode;
  json_loads := fx2_json_loads
|}.

End Fixture2.

Module MoreProps.
Import PyStr Py Env Deanonymizer.

(** The candidate file cannot be used as an RSA public key: it cannot be
    read, it is not a public key, or the key has no modulus. *)
Definition unusable_candidate (P : Platform) (candidate : Path) : Prop :=
  (exists e, read_file P (path_str candidate) = Raise e) \/
  (exists data e, read_file P (path_str candidate) = Ok data /\
                  load_pem_public_key P data = Raise e) \/
  (exists data public_key e,
     read_file P (path_str candidate) = Ok data /\
     load_pem_public_key P data = Ok public_key /\
     public_modulus P public_key = Raise e).

End MoreProps.

(* ===================================================================== *)
(** * Facts about Python strings *)
(* ===================================================================== *)

Module PyStrFacts.
Import PyStr Deanonymizer Props.

Lemma str_app_cons c s t : String c s +:+ t = String c (s +:+ t).
Proof. reflexivity. Qed.

Lemma str_app_nil_l s : "" +:+ s = s.
Proof. reflexivity. Qed.

Lemma str_app_nil_r s : s +:+ "" = s.
Proof. induction s as [|c s IH]; [done|]. by rewrite str_app_cons, IH. Qed.

Lemma str_app_assoc s t u : (s +:+ t) +:+ u = s +:+ t +:+ u.
Proof. induction s as [|c s IH]; [done|]. by rewrite !str_app_cons, IH. Qed.

Lemma str_length_app s t : String.length (s +:+ t) = String.length s + String.length t.
Proof. induction s as [|c s IH]; [done|]. rewrite str_app_cons. simpl. by rewrite IH. Qed.

Lemma str_app_eq_nil s t : s +:+ t = "" -> s = "" /\ t = "".
Proof. destruct s; [done|]. by rewrite str_app_cons. Qed.

Lemma str_app_inv_head s t u : s +:+ t = s +:+ u -> t = u.
Proof.
  induction s as [|c s IH]; [done|].
  rewrite !str_app_cons. intros [= H]. auto.
Qed.

Lemma str_app_inv_tail s t u : t +:+ s = u +:+ s -> t = u.
Proof.
  revert u. induction t as [|c t IH]; intros u H.
  - destruct u as [|d u]; [done|].
    apply (f_equal String.length) in H.
    rewrite !str_length_app in H. simpl in H. lia.
  - destruct u as [|d u].
    + apply (f_equal String.length) in H.
      rewrite !str_length_app in H. simpl in H. lia.
    + rewrite !str_app_cons in H. injection H as -> H. f_equal. auto.
Qed.

(** Two ways of cutting the same text: one cut point lies before the other. *)
Lemma str_app_eq_app a b c d :
  a +:+ b = c +:+ d ->
  (exists m, c = a +:+ m /\ b = m +:+ d) \/ (exists m, a = c +:+ m /\ d = m +:+ b).
Proof.
  revert c. induction a as [|x a IH]; intros c H.
  - left. exists c. by rewrite str_app_nil_l in *.
  - destruct c as [|y c].
    + right. exists (String x a). by rewrite str_app_nil_l in *.
    + rewrite !str_app_cons in H. injection H as -> H.
      destruct (IH _ H) as [(m & -> & ->)|(m & -> & ->)].
      * left. by exists m.
      * right. by exists m.
Qed.

(** ** Prefixes, suffixes, occurrences *)

Lemma is_prefix_nil s : is_prefix "" s.
Proof. by exists s. Qed.

Lemma is_prefix_refl s : is_prefix s s.
Proof. exists "". by rewrite str_app_nil_r. Qed.

Lemma is_suffix_refl s : is_suffix s s.
Proof. by exists "". Qed.

Lemma is_prefix_of_nil p : is_prefix p "" -> p = "".
Proof. intros [r H]. symmetry in H. by apply str_app_eq_nil in H as [-> _]. Qed.

Lemma is_prefix_cons c p d s :
  is_prefix (String c p) (String d s) <-> c = d /\ is_prefix p s.
Proof.
  split.
  - intros [r H]. rewrite str_app_cons in H. injection H as -> ->. split; [done|by exists r].
  - intros [-> [r ->]]. by exists r.
Qed.

Lemma is_prefix_app_r p s t : is_prefix p s -> is_prefix p (s +:+ t).
Proof. intros [r ->]. exists (r +:+ t). by rewrite str_app_assoc. Qed.

Lemma is_suffix_cons_r c w p : is_suffix w p -> is_suffix w (String c p).
Proof. intros [l ->]. by exists (String c l). Qed.

Lemma startswith_spec s p : startswith s p = true <-> is_prefix p s.
Proof.
  revert s. induction p as [|a p IH]; intros s; simpl.
  - destruct s; split; auto using is_prefix_nil.
  - destruct s as [|b s].
    + split; [done|]. by intros ?%is_prefix_of_nil.
    + rewrite is_prefix_cons, <-IH. simpl.
      destruct (Ascii.eqb a b) eqn:E; simpl.
      * apply Ascii.eqb_eq in E as ->. split; [auto|by intros [_ ?]].
      * apply Ascii.eqb_neq in E. split; [done|]. by intros [? _].
Qed.

Lemma startswith_false s p : startswith s p = false <-> ~ is_prefix p s.
Proof. rewrite <-startswith_spec. by destruct (startswith s p). Qed.

Lemma occurs_nil_l s : occurs "" s.
Proof. by exists "", s. Qed.

Lemma occurs_refl s : occurs s s.
Proof. exists "", "". by rewrite str_app_nil_r. Qed.

Lemma occurs_of_nil p : occurs p "" -> p = "".
Proof.
  intros (l & r & H). symmetry in H.
  apply str_app_eq_nil in H as [_ H]. by apply str_app_eq_nil in H as [-> _].
Qed.

Lemma is_prefix_occurs p s : is_prefix p s -> occurs p s.
Proof. intros [r ->]. by exists "", r. Qed.

Lemma is_suffix_occurs p s : is_suffix p s -> occurs p s.
Proof. intros [l ->]. exists l, "". by rewrite str_app_nil_r. Qed.

Lemma occurs_cons p c s :
  occurs p (String c s) <-> is_prefix p (String c s) \/ occurs p s.
Proof.
  split.
  - intros (l & r & H). destruct l as [|d l].
    + left. by exists r.
    + right. rewrite str_app_cons in H. injection H as _ ->. by exists l, r.
  - intros [H|(l & r & ->)]; [by apply is_prefix_occurs|].
    by exists (String c l), r.
Qed.

Lemma occurs_app_l p s t : occurs p s -> occurs p (s +:+ t).
Proof.
  intros (l & r & ->). exists l, (r +:+ t). by rewrite !str_app_assoc.
Qed.

Lemma occurs_app_r p s t : occurs p t -> occurs p (s +:+ t).
Proof.
  intros (l & r & ->). exists (s +:+ l), r. by rewrite !str_app_assoc.
Qed.

Lemma occurs_trans p q s : occurs p q -> occurs q s -> occurs p s.
Proof.
  intros (l & r & ->) (l' & r' & ->).
  exists (l' +:+ l), (r +:+ r'). by rewrite !str_app_assoc.
Qed.

Lemma contains_spec s p : contains s p = true <-> occurs p s.
Proof.
  induction s as [|c s IH].
  - cbn [contains]. rewrite orb_false_r, startswith_spec. split.
    + apply is_prefix_occurs.
    + intros ->%occurs_of_nil. apply is_prefix_nil.
  - cbn [contains]. rewrite orb_true_iff, startswith_spec, IH, occurs_cons. done.
Qed.

Lemma contains_false s p : contains s p = false <-> ~ occurs p s.
Proof. rewrite <-contains_spec. by destruct (contains s p). Qed.

(** ** The scan of [replace] *)

Lemma drop_app_length p r : drop (String.length p) (p +:+ r) = r.
Proof. induction p as [|c p IH]; [done|]. rewrite str_app_cons. simpl. done. Qed.

Lemma replace_scan_skip old new k s :
  replace_scan old new k s = replace_scan old new 0 (drop k s).
Proof.
  revert k. induction s as [|c s IH]; intros [|k]; try done.
  simpl. apply IH.
Qed.

Lemma replace_nil old new : old <> "" -> replace "" old new = "".
Proof. by destruct old. Qed.

Lemma replace_match old new r :
  old <> "" -> replace (old +:+ r) old new = new +:+ replace r old new.
Proof.
  destruct old as [|a old]; [done|]. intros _. unfold replace.
  rewrite str_app_cons. cbn [replace_scan].
  assert (startswith (String a (old +:+ r)) (String a old) = true) as ->.
  { apply startswith_spec. by exists r. }
  rewrite replace_scan_skip.
  replace (String.length (String a old) - 1) with (String.length old)
    by (simpl; lia).
  by rewrite drop_app_length.
Qed.

Lemma replace_step c r old new :
  old <> "" -> ~ is_prefix old (String c r) ->
  replace (String c r) old new = String c (replace r old new).
Proof.
  destruct old as [|a old]; [done|]. intros _ Hn. unfold replace.
  cbn [replace_scan].
  apply startswith_false in Hn. by rewrite Hn.
Qed.


(** Induction along the scan of [replace]. *)
Lemma replace_ind (old : string) (P : string -> Prop) :
  old <> "" ->
  P "" ->
  (forall r, P r -> P (old +:+ r)) ->
  (forall c r, ~ is_prefix old (String c r) -> P r -> P (String c r)) ->
  forall s, P s.
Proof.
  intros Hold H0 Hm Hs s.
  remember (String.length s) as n eqn:Hn.
  revert s Hn. induction (lt_wf n) as [n _ IH]. intros s ->.
  destruct s as [|c s]; [done|].
  destruct (startswith (String c s) old) eqn:E;
    [apply startswith_spec in E as [r Hr]|apply startswith_false in E as Hno].
  - rewrite Hr. apply Hm. eapply IH; [|done].
    rewrite Hr, str_length_app. destruct old; [done|]. simpl. lia.
  - apply Hs; [done|]. eapply IH; [|done]. simpl. lia.
Qed.

Lemma replace_absent s old new :
  old <> "" -> ~ occurs old s -> replace s old new = s.
Proof.
  intros Hold. induction s as [|c s IH]; intros Hno.
  - by apply replace_nil.
  - rewrite occurs_cons in Hno.
    rewrite replace_step, IH; tauto.
Qed.

Lemma join_cons2 sep u v rest :
  join sep (u :: v :: rest) = u +:+ sep +:+ join sep (v :: rest).
Proof. reflexivity. Qed.

Lemma join_head_prefix sep u rest : is_prefix u (join sep (u :: rest)).
Proof.
  destruct rest as [|v rest]; [apply is_prefix_refl|].
  rewrite join_cons2. by eexists.
Qed.

Lemma join_cons_head sep c u rest :
  join sep (String c u :: rest) = String c (join sep (u :: rest)).
Proof. by destruct rest. Qed.

(** [s.replace(old, new) == new.join(s.split(old))]: the text is cut at the
    replaced occurrences into segments, none of which contains [old]. *)
Lemma replace_segments s old new :
  old <> "" ->
  exists segs,
    s = join old segs /\ replace s old new = join new segs /\
    Forall (fun u => ~ occurs old u) segs /\ segs <> [].
Proof.
  intros Hold. revert s.
  apply (replace_ind old); [done| |intros r IH|intros c r Hno IH].
  - exists [""]. split_and!; try done.
    + by apply replace_nil.
    + constructor; [|done]. by intros ->%occurs_of_nil.
  - destruct IH as (segs & Hs & Hr & Hf & Hne).
    destruct segs as [|u rest]; [done|].
    exists ("" :: u :: rest). split_and!; try done.
    + rewrite join_cons2, str_app_nil_l. by rewrite <-Hs.
    + rewrite replace_match by done. rewrite join_cons2, str_app_nil_l. by rewrite Hr.
    + constructor; [|done]. by intros ->%occurs_of_nil.
  - destruct IH as (segs & Hs & Hr & Hf & Hne).
    destruct segs as [|u rest]; [done|].
    exists (String c u :: rest). split_and!; try done.
    + rewrite join_cons_head. by rewrite <-Hs.
    + rewrite replace_step by done. rewrite join_cons_head. by rewrite Hr.
    + inversion Hf as [|? ? Hu Hrest]; subst. constructor; [|done].
      rewrite occurs_cons. intros [Hp|Ho]; [|done].
      apply Hno. destruct (join_head_prefix old u rest) as [k Hk].
      destruct Hp as [k' Hk']. exists (k' +:+ k).
      rewrite Hk at 1. rewrite <-str_app_cons, Hk'. by rewrite str_app_assoc.
Qed.

(** ** The empty pattern *)


Lemma chars_nonempty c s : chars (String c s) <> [].
Proof. cbn [chars]. destruct (at_boundary s); [done|]. by destruct (chars s). Qed.

Lemma chars_cons c s :
  chars (String c s)
  = if at_boundary s then String c "" :: chars s
    else match chars s with
         | u :: rest => String c u :: rest
         | [] => [String c ""]
         end.
Proof. reflexivity. Qed.

(** The characters of a text, put together again, are the text. *)
Lemma join_chars s : join "" (chars s) = s.
Proof.
  induction s as [|c s IH]; [done|]. rewrite chars_cons.
  destruct (at_boundary s).
  - destruct (chars s) as [|u rest] eqn:E; [by rewrite <-IH|].
    rewrite join_cons2, str_app_nil_l, IH. done.
  - destruct (chars s) as [|u rest] eqn:E; [by rewrite <-IH|].
    by rewrite join_cons_head, IH.
Qed.

Lemma at_boundary_app a b :
  a <> "" -> at_boundary (a +:+ b) = at_boundary a.
Proof. by destruct a. Qed.

Lemma chars_app a b :
  at_boundary b = true -> chars (a +:+ b) = chars a ++ chars b.
Proof.
  intros Hb. induction a as [|c a IH]; [done|].
  rewrite str_app_cons, !chars_cons. destruct a as [|d a].
  - rewrite str_app_nil_l, Hb. done.
  - rewrite at_boundary_app by done. rewrite IH.
    destruct (at_boundary (String d a)); [done|].
    pose proof (chars_nonempty d a) as Hne.
    by destruct (chars (String d a)).
Qed.

Lemma spread_join v s : spread v s = join v (chars s ++ [""]).
Proof.
  induction s as [|c s IH]; [done|].
  cbn [spread]. rewrite chars_cons, IH.
  destruct (at_boundary s) eqn:Hs.
  - cbn [app]. destruct (chars s ++ [""]) as [|x xs] eqn:E.
    { by destruct (chars s). }
    by rewrite join_cons2.
  - destruct s as [|d s]; [done|].
    pose proof (chars_nonempty d s) as Hne.
    destruct (chars (String d s)) as [|u rest]; [done|].
    cbn [app]. by rewrite join_cons_head, str_app_nil_l.
Qed.

Lemma interleave_join v s : interleave v s = join v ("" :: chars s ++ [""]).
Proof.
  unfold interleave. rewrite spread_join.
  destruct (chars s ++ [""]) as [|x xs] eqn:E.
  { by destruct (chars s). }
  by rewrite join_cons2, str_app_nil_l.
Qed.

Lemma interleave_nil_text v : interleave v "" = v.
Proof. unfold interleave. cbn [spread]. apply str_app_nil_r. Qed.

(** One character, then the rest of the text. *)
Lemma interleave_char v c r :
  chars c = [c] -> at_boundary r = true ->
  interleave v (c +:+ r) = v +:+ c +:+ interleave v r.
Proof.
  intros Hc Hr. rewrite !interleave_join, chars_app, Hc by done.
  cbn [app]. rewrite join_cons2, str_app_nil_l.
  destruct (chars r ++ [""]) as [|x xs] eqn:E.
  { by destruct (chars r). }
  by rewrite !join_cons2, str_app_nil_l.
Qed.

Lemma length_spread v s :
  String.length (spread v s) = String.length s + len s * String.length v.
Proof.
  unfold len. induction s as [|c s IH]; [done|].
  cbn [spread String.length]. rewrite str_length_app, IH, chars_cons.
  destruct (at_boundary s) eqn:Hs.
  - cbn [length]. lia.
  - destruct s as [|d s]; [done|].
    pose proof (chars_nonempty d s) as Hne.
    destruct (chars (String d s)) as [|u rest]; [done|].
    cbn [String.length length]. lia.
Qed.

Lemma length_interleave v s :
  String.length (interleave v s)
  = String.length s + (len s + 1) * String.length v.
Proof. unfold interleave. rewrite str_length_app, length_spread. lia. Qed.

Lemma at_boundary_spread v s : at_boundary (spread v s) = at_boundary s.
Proof. by destruct s. Qed.

(** Counted in characters: every character of the text, and a copy of [v]
    after each. *)
Lemma len_spread v s :
  at_boundary v = true -> len (spread v s) = len s + len s * len v.
Proof.
  intros Hv. unfold len. induction s as [|c s IH]; [done|].
  cbn [spread]. destruct (at_boundary s) eqn:Hs.
  - rewrite (chars_cons c s), Hs, chars_cons.
    assert (at_boundary (v +:+ spread v s) = true) as ->.
    { destruct v as [|a v]; [by rewrite str_app_nil_l, at_boundary_spread|done]. }
    rewrite chars_app by (by rewrite at_boundary_spread).
    cbn [length]. rewrite List.length_app, IH. lia.
  - rewrite str_app_nil_l, (chars_cons c s), Hs, chars_cons, at_boundary_spread, Hs.
    destruct s as [|d s]; [done|].
    pose proof (chars_nonempty d s) as Hne.
    assert (chars (spread v (String d s)) <> []) as Hne'.
    { cbn [spread]. apply chars_nonempty. }
    destruct (chars (String d s)) as [|u rest]; [done|].
    destruct (chars (spread v (String d s))) as [|u' rest']; [done|].
    cbn [length] in *. lia.
Qed.

Lemma len_interleave v s :
  at_boundary v = true -> at_boundary s = true ->
  len (interleave v s) = len s + (len s + 1) * len v.
Proof.
  intros Hv Hs. unfold interleave.
  pose proof (len_spread v s Hv) as H. unfold len in *.
  rewrite chars_app by (by rewrite at_boundary_spread).
  rewrite List.length_app, H. lia.
Qed.

(** An occurrence of [p] in [a +:+ b] lies in [a], lies in [b], or
    straddles the junction. *)
Lemma occurs_app_inv p a b :
  occurs p (a +:+ b) ->
  occurs p a \/ occurs p b \/
  exists w1 w2, p = w1 +:+ w2 /\ w1 <> "" /\ w2 <> "" /\
                is_suffix w1 a /\ is_prefix w2 b.
Proof.
  intros (l & r & H).
  apply str_app_eq_app in H as [(m & -> & ->)|(m & -> & H)].
  - right; left. by exists m, r.
  - apply str_app_eq_app in H as [(k & -> & ->)|(k & -> & ->)].
    + left. by exists l, k.
    + destruct m as [|c m]; [right; left; by exists "", r|].
      destruct k as [|d k].
      { left. rewrite str_app_nil_r. by apply is_suffix_occurs; exists l. }
      right; right. exists (String c m), (String d k).
      split_and!; try done; [by exists l|by exists r].
Qed.

Lemma is_prefix_app_inv q a b :
  is_prefix q (a +:+ b) -> is_prefix q a \/ is_prefix a q.
Proof.
  intros [r H]. apply str_app_eq_app in H as [(m & -> & _)|(m & -> & _)].
  - right. by exists m.
  - left. by exists m.
Qed.


Lemma clear_of_tail new c q : clear_of new (String c q) -> clear_of new q.
Proof.
  intros [H1 H2]. split.
  - intros w Hw Hs. apply H1; [done|]. by apply is_suffix_cons_r.
  - intros Ho. apply H2. apply occurs_cons. by right.
Qed.

Lemma no_overlap_clear_of p new : ~ overlap p new -> clear_of new p.
Proof.
  intros Hno. split.
  - intros w Hw Hs Hp. apply Hno. right; right. exists w. auto.
  - intros Ho. apply Hno. right; by left.
Qed.

(** A prefix of the replaced text that is clear of [new] is a prefix of
    the original text. *)
Lemma replace_prefix_inv old new s q :
  old <> "" -> clear_of new q ->
  is_prefix q (replace s old new) -> is_prefix q s.
Proof.
  intros Hold. revert s q.
  apply (replace_ind old (fun s => forall q, clear_of new q ->
     is_prefix q (replace s old new) -> is_prefix q s)); [done|..].
  - intros q _. by rewrite replace_nil.
  - intros r _ q [H1 H2]. rewrite replace_match by done.
    intros [Hq|Hq]%is_prefix_app_inv.
    + destruct q as [|c q]; [apply is_prefix_nil|].
      destruct (H1 (String c q)); [done|apply is_suffix_refl|done].
    + destruct H2. by apply is_prefix_occurs.
  - intros c r Hno IH q Hq. rewrite replace_step by done.
    destruct q as [|d q]; [intros _; apply is_prefix_nil|].
    rewrite !is_prefix_cons. intros [-> Hp]. split; [done|].
    apply IH; [|done]. by eapply clear_of_tail.
Qed.

Lemma occurs_app_new_inv p new R :
  ~ overlap p new -> occurs p (new +:+ R) -> occurs p R.
Proof.
  intros Hno [H|[H|(w1 & w2 & -> & Hw1 & Hw2 & Hs & Hp)]]%occurs_app_inv; [|done|].
  - destruct Hno. by left.
  - destruct Hno. right; right. exists w1. split; [done|]. right.
    split; [done|]. by exists w2.
Qed.

(** Replacing [old] by [new] creates no occurrence of a string that does
    not overlap [new]. *)
Lemma replace_occurs_inv old new p s :
  old <> "" -> ~ overlap p new ->
  occurs p (replace s old new) -> occurs p s.
Proof.
  intros Hold Hno. revert s.
  apply (replace_ind old (fun s => occurs p (replace s old new) -> occurs p s));
    [done|..].
  - by rewrite replace_nil.
  - intros r IH. rewrite replace_match by done.
    intros Ho%occurs_app_new_inv; [|done]. by apply occurs_app_r, IH.
  - intros c r Hn IH Ho.
    assert (Hstep := replace_step c r old new Hold Hn).
    rewrite Hstep in Ho. apply occurs_cons in Ho as [Hp|Ho].
    + apply is_prefix_occurs.
      apply (replace_prefix_inv old new); [done|by apply no_overlap_clear_of|].
      by rewrite Hstep.
    + apply occurs_cons. right. by apply IH.
Qed.

(** After the replacement no occurrence of [old] is left, provided [old]
    and [new] do not overlap. *)
Lemma replace_removes old new s :
  ~ overlap old new -> ~ occurs old (replace s old new).
Proof.
  intros Hno.
  assert (old <> "") as Hold.
  { intros ->. apply Hno. left. apply occurs_nil_l. }
  revert s.
  apply (replace_ind old (fun s => ~ occurs old (replace s old new))); [done|..].
  - rewrite replace_nil by done. by intros ->%occurs_of_nil.
  - intros r IH. rewrite replace_match by done.
    by intros Ho%occurs_app_new_inv.
  - intros c r Hn IH Ho.
    assert (Hstep := replace_step c r old new Hold Hn).
    rewrite Hstep in Ho. apply occurs_cons in Ho as [Hp|Ho]; [|done].
    apply Hn. apply (replace_prefix_inv old new); [done|by apply no_overlap_clear_of|].
    by rewrite Hstep.
Qed.


Lemma reconstruct_text_free m : forall t q,
  (forall p, In p (placeholders m) -> p <> "") ->
  (forall o, In o (originals m) -> ~ overlap q o) ->
  ~ occurs q t \/ In q (placeholders m) ->
  ~ occurs q (reconstruct_text t m).
Proof.
  induction m as [|[p o] m IH]; intros t q Hne Hno Hq.
  - simpl in *. tauto.
  - cbn [reconstruct_text]. apply IH.
    + intros p' Hp'. apply Hne. by right.
    + intros o' Ho'. apply Hno. by right.
    + assert (~ overlap q o) as Hqo by (apply Hno; by left).
      destruct Hq as [Hq|[<-|Hq]]; [left|left|by right].
      * intros Ho. apply Hq. eapply replace_occurs_inv; [|done|done].
        apply Hne. by left.
      * by apply replace_removes.
Qed.

Lemma reconstruct_text_absent m : forall t,
  (forall p, In p (placeholders m) -> p <> "" /\ ~ occurs p t) ->
  reconstruct_text t m = t.
Proof.
  induction m as [|[p o] m IH]; intros t H; [done|].
  cbn [reconstruct_text].
  destruct (H p) as [Hp Ho]; [by left|].
  rewrite replace_absent by done. apply IH.
  intros p' Hp'. apply H. by right.
Qed.

Lemma reconstruct_text_idem t m :
  (forall p o, In p (placeholders m) -> In o (originals m) -> ~ overlap p o) ->
  reconstruct_text (reconstruct_text t m) m = reconstruct_text t m.
Proof.
  intros Hno. apply reconstruct_text_absent. intros p Hp.
  assert (forall p, In p (placeholders m) -> p <> "") as Hne.
  { intros p' Hp' ->. unfold placeholders, originals in *.
    apply in_map_iff in Hp' as ([p1 o1] & Hfst & Hin). simpl in Hfst. subst p1.
    apply (Hno "" o1); [by apply in_map_iff; exists ("", o1)| |].
    - apply in_map_iff. by exists ("", o1).
    - left. apply occurs_nil_l. }
  split; [by apply Hne|].
  apply reconstruct_text_free; auto.
Qed.

End PyStrFacts.

(* ===================================================================== *)
(** * Facts about [reconstruct_text] *)
(* ===================================================================== *)

Module ReconstructorFacts.
Import PyStr Py Deanonymizer Props PyStrFacts.

Lemma suffixes_spec w s : In w (suffixes s) <-> w <> "" /\ is_suffix w s.
Proof.
  induction s as [|c s IH]; simpl.
  - split; [done|]. intros [Hw [l Hl]]. symmetry in Hl.
    by apply str_app_eq_nil in Hl as [_ ->].
  - rewrite IH. split.
    + intros [<-|[Hw Hs]]; [split; [done|apply is_suffix_refl]|].
      split; [done|by apply is_suffix_cons_r].
    + intros [Hw [l Hl]]. destruct l as [|d l].
      * left. by rewrite str_app_nil_l in Hl.
      * right. rewrite str_app_cons in Hl. injection Hl as _ ->.
        split; [done|by exists l].
Qed.

Lemma border_spec p o :
  border p o = true <-> exists w, w <> "" /\ is_suffix w p /\ is_prefix w o.
Proof.
  unfold border. rewrite existsb_exists. split.
  - intros (w & Hin & Hp). apply suffixes_spec in Hin as [? ?].
    apply startswith_spec in Hp. eauto.
  - intros (w & Hw & Hs & Hp). exists w.
    rewrite suffixes_spec, startswith_spec. auto.
Qed.

Lemma overlapb_spec p o : overlapb p o = true <-> overlap p o.
Proof.
  unfold overlapb, overlap.
  rewrite !orb_true_iff, !contains_spec, !border_spec. split.
  - intros [[[H|H]|(w & ? & ? & ?)]|(w & ? & ? & ?)]; eauto 10.
  - intros [H|[H|(w & ? & [[? ?]|[? ?]])]]; eauto 10.
Qed.

Lemma no_overlapb_spec m : no_overlapb m = true -> no_overlap m.
Proof.
  unfold no_overlapb. rewrite forallb_forall. intros H p o Hp Ho Hov.
  specialize (H p Hp). rewrite forallb_forall in H. specialize (H o Ho).
  apply overlapb_spec in Hov. by rewrite Hov in H.
Qed.

Lemma reconstruct_text_app t m1 m2 :
  reconstruct_text t (m1 ++ m2) = reconstruct_text (reconstruct_text t m1) m2.
Proof.
  revert t. induction m1 as [|[p o] m1 IH]; intros t; [done|]. apply IH.
Qed.

(** On a text and a well-formed mapping the loop over JSON values computes
    [reconstruct_text]. *)
Lemma reconstruct_loop_typed m : forall t,
  reconstruct_loop (PStr t)
    (map (fun po => PList [PStr (fst po); PStr (snd po)]) m)
  = Ok (PStr (reconstruct_text t m)).
Proof.
  induction m as [|[p o] m IH]; intros t; [done|].
  cbn [map reconstruct_loop reconstruct_text fst snd]. apply IH.
Qed.

Lemma reconstruct_text_dyn_typed t m :
  reconstruct_text_dyn (PStr t) (mapping_val m) = Ok (PStr (reconstruct_text t m)).
Proof. apply reconstruct_loop_typed. Qed.

End ReconstructorFacts.

(* ===================================================================== *)
(** * Facts about effects *)
(* ===================================================================== *)

Module EffectFacts.
Import PyStr Py Deanonymizer Props.

Lemma M_eta {A} (m : M A) : MkM (trace m) (outcome m) = m.
Proof. by destruct m. Qed.

Section MFacts.
Context {A B : Type}.

Lemma bind_ok (m : M A) (f : A -> M B) a :
  outcome m = Ok a -> m ≫= f = MkM (trace m ++ trace (f a)) (outcome (f a)).
Proof. intros H. unfold mbind, M_bind. by rewrite H. Qed.

Lemma bind_raise (m : M A) (f : A -> M B) e :
  outcome m = Raise e -> m ≫= f = MkM (trace m) (Raise e).
Proof. intros H. unfold mbind, M_bind. by rewrite H. Qed.

Lemma bind_lift_ok (a : A) (f : A -> M B) : lift (Ok a) ≫= f = f a.
Proof. unfold mbind, M_bind. simpl. apply M_eta. Qed.

Lemma bind_lift_raise e (f : A -> M B) : lift (Raise e) ≫= f = raise e.
Proof. reflexivity. Qed.

Lemma bind_ret (a : A) (f : A -> M B) : mret a ≫= f = f a.
Proof. unfold mbind, M_bind. simpl. apply M_eta. Qed.

End MFacts.

Lemma bind_emit {B} ev (k : M B) :
  emit ev ≫= (fun _ => k) = MkM (ev :: trace k) (outcome k).
Proof. reflexivity. Qed.

Lemma bind_print {B} line (k : M B) :
  print line ≫= (fun _ => k) = MkM (EvPrint line :: trace k) (outcome k).
Proof. reflexivity. Qed.

Lemma result_bind_ok {A B} (a : A) (f : A -> result B) : Ok a ≫= f = f a.
Proof. reflexivity. Qed.

Lemma result_bind_raise {A B} e (f : A -> result B) : Raise e ≫= f = Raise e.
Proof. reflexivity. Qed.

(** One step of a computation: an [emit] is recorded, a lifted library
    call is split into its two outcomes. *)
Ltac mstep_emit := rewrite bind_emit; cbn [trace outcome].
Ltac mstep_lift r :=
  destruct r eqn:?;
  [rewrite bind_lift_ok|rewrite bind_lift_raise; cbn [raise trace outcome]].
Ltac mstep :=
  match goal with
  | |- context [trace (emit _ ≫= _)] => mstep_emit
  | |- context [outcome (emit _ ≫= _)] => mstep_emit
  | |- context [trace (lift ?r ≫= _)] => mstep_lift r
  | |- context [outcome (lift ?r ≫= _)] => mstep_lift r
  end.

Lemma bind_assoc {A B C} (m : M A) (f : A -> M B) (g : B -> M C) :
  (m ≫= f) ≫= g = m ≫= (fun x => f x ≫= g).
Proof.
  destruct m as [t [a|e]]; unfold mbind, M_bind; cbn [trace outcome]; [|done].
  destruct (f a) as [t' [b|e]]; cbn [trace outcome]; by rewrite ?List.app_assoc.
Qed.

Lemma saved_app t1 t2 : saved (t1 ++ t2) = saved t1 ++ saved t2.
Proof. apply omap_app. Qed.

Lemma printed_app t1 t2 : printed (t1 ++ t2) = printed t1 ++ printed t2.
Proof. apply omap_app. Qed.

Lemma quiet_saved_printed t :
  Forall (fun ev => is_quiet ev = true) t -> saved t = [] /\ printed t = [].
Proof.
  induction 1 as [|ev t Hev _ [IH1 IH2]]; [done|].
  unfold saved, printed in *. cbn [omap list_omap]. rewrite IH1, IH2.
  by destruct ev.
Qed.

Lemma store_app t1 t2 : store (t1 ++ t2) = foldl apply_event (store t1) t2.
Proof. apply foldl_app. Qed.


Lemma filter_count_app {A} (f : A -> bool) (l1 l2 : list A) :
  length (List.filter f (l1 ++ l2))
  = length (List.filter f l1) + length (List.filter f l2).
Proof. by rewrite List.filter_app, List.length_app. Qed.

Lemma filter_none {A} (f : A -> bool) (l : list A) :
  Forall (fun x => f x = false) l -> List.filter f l = [].
Proof.
  induction 1 as [|x l Hx _ IH]; [done|]. simpl. by rewrite Hx.
Qed.

Lemma is_error_line_error_line r e : is_error_line (error_line r e) = true.
Proof.
  unfold is_error_line, error_line. apply PyStrFacts.startswith_spec. by eexists.
Qed.

(** ** The files written *)


Lemma apply_event_frame (fs : gmap string string) p ev :
  touches p ev = false -> apply_event fs ev !! p = fs !! p.
Proof.
  destruct ev as [| | | | | |q|q text|]; cbn [apply_event touches]; try done.
  - intros Hne%String.eqb_neq. by rewrite lookup_insert_ne.
  - intros Hne%String.eqb_neq. by rewrite lookup_insert_ne.
Qed.


Lemma foldl_apply_frame t : forall (fs : gmap string string) p,
  Forall (fun ev => touches p ev = false) t ->
  foldl apply_event fs t !! p = fs !! p.
Proof.
  induction t as [|ev t IH]; intros fs p H; [done|].
  inversion H as [|? ? Hev Ht]; subst. cbn [foldl].
  rewrite IH by done. by apply apply_event_frame.
Qed.

End EffectFacts.

(* ===================================================================== *)
(** * Facts about [infer_user_id] *)
(* ===================================================================== *)

Module ResolverFacts.
Import PyStr Py Env Deanonymizer Props EffectFacts.

Section Resolver.
Context (P : Platform).
Implicit Types (sk : PrivateKey P) (p q : Path).

Lemma load_private_key_trace path :
  trace (load_private_key P path) = [EvLoadPrivateKey path].
Proof.
  unfold load_private_key. rewrite bind_emit. cbn [trace outcome].
  destruct (read_file P path) as [data|e]; [rewrite bind_lift_ok|rewrite bind_lift_raise]; done.
Qed.

Lemma try_public_key_trace sk p :
  trace (try_public_key P sk p) = [EvLoadPublicKey (path_str p)].
Proof.
  unfold try_public_key, try_except. rewrite bind_emit. cbn [trace outcome].
  destruct (read_file P (path_str p)) as [data|e];
    [rewrite bind_lift_ok|by rewrite bind_lift_raise].
  destruct (load_pem_public_key P data) as [pk|e];
    [rewrite bind_lift_ok|by rewrite bind_lift_raise].
  simpl. by destruct (modulus_equal P sk pk).
Qed.

Lemma try_public_key_outcome sk p :
  exists found, outcome (try_public_key P sk p) = Ok found /\
                (found = true <-> candidate_matches P sk p).
Proof.
  unfold try_public_key, try_except, candidate_matches. rewrite bind_emit. cbn [trace outcome].
  destruct (read_file P (path_str p)) as [data|e];
    [rewrite bind_lift_ok|rewrite bind_lift_raise; cbn [trace outcome raise]].
  2:{ exists false. split; [done|]. split; [done|]. by intros (?&?&?&?&_). }
  destruct (load_pem_public_key P data) as [pk|e] eqn:Hpk;
    [rewrite bind_lift_ok|rewrite bind_lift_raise; cbn [trace outcome raise]].
  2:{ exists false. split; [done|]. split; [done|].
      intros (?&?&?&[= <-]&?&_). congruence. }
  simpl. unfold modulus_equal.
  destruct (private_modulus P sk) as [n1|e] eqn:H1; simpl.
  2:{ exists false. split; [done|]. split; [done|]. by intros (?&?&?&_&_&?&_). }
  destruct (public_modulus P pk) as [n2|e] eqn:H2; simpl.
  2:{ exists false. split; [done|]. split; [done|].
      intros (?&?&?&[= <-]&?&_&?). congruence. }
  exists (Z.eqb n1 n2). split; [done|]. rewrite Z.eqb_eq. split.
  - intros ->. by exists data, pk, n2.
  - intros (?&?&?&[= <-]&?&?&?). congruence.
Qed.

Lemma scan_step sk p rest :
  (candidate_matches P sk p ->
   outcome (scan_public_keys P sk (p :: rest)) = Ok (stem p)) /\
  (~ candidate_matches P sk p ->
   outcome (scan_public_keys P sk (p :: rest))
   = outcome (scan_public_keys P sk rest)).
Proof.
  cbn [scan_public_keys].
  destruct (try_public_key_outcome sk p) as (found & Hout & Hfound).
  rewrite (bind_ok _ _ _ Hout). simpl.
  destruct found; split; intros H; try done.
  - destruct H. by apply Hfound.
  - apply Hfound in H. done.
Qed.

Lemma candidate_matches_dec sk p :
  candidate_matches P sk p \/ ~ candidate_matches P sk p.
Proof.
  destruct (try_public_key_outcome sk p) as ([] & _ & H); [left|right]; [tauto|].
  intros ?%H. done.
Qed.

Lemma scan_first_match sk l1 p l2 :
  (forall q, In q l1 -> ~ candidate_matches P sk q) ->
  candidate_matches P sk p ->
  outcome (scan_public_keys P sk (l1 ++ p :: l2)) = Ok (stem p).
Proof.
  intros Hl1 Hp. induction l1 as [|q l1 IH]; simpl app.
  - by apply scan_step.
  - destruct (scan_step sk q (l1 ++ p :: l2)) as [_ ->].
    + apply IH. intros q' Hq'. apply Hl1. by right.
    + apply Hl1. by left.
Qed.

Lemma scan_no_match sk l :
  (forall q, In q l -> ~ candidate_matches P sk q) ->
  outcome (scan_public_keys P sk l) = Raise no_matching_public_key.
Proof.
  induction l as [|q l IH]; intros H; [done|].
  destruct (scan_step sk q l) as [_ ->].
  - apply IH. intros q' Hq'. apply H. by right.
  - apply H. by left.
Qed.

Lemma scan_sound sk l uid :
  outcome (scan_public_keys P sk l) = Ok uid ->
  exists p, In p l /\ stem p = uid /\ candidate_matches P sk p.
Proof.
  induction l as [|q l IH]; [done|].
  destruct (candidate_matches_dec sk q) as [Hq|Hq].
  - destruct (scan_step sk q l) as [-> _]; [|done].
    intros [= <-]. exists q. split; [by left|done].
  - destruct (scan_step sk q l) as [_ ->]; [|done].
    intros (p & ? & ? & ?)%IH. exists p. split; [by right|done].
Qed.

Lemma scan_unique_match sk l p :
  In p l -> candidate_matches P sk p ->
  (forall q, In q l -> candidate_matches P sk q -> stem q = stem p) ->
  outcome (scan_public_keys P sk l) = Ok (stem p).
Proof.
  intros Hin Hp Huniq.
  apply in_split in Hin as (l1 & l2 & ->).
  induction l1 as [|q l1 IH]; simpl app in *.
  - by apply scan_step.
  - destruct (candidate_matches_dec sk q) as [Hq|Hq].
    + destruct (scan_step sk q (l1 ++ p :: l2)) as [-> _]; [|done].
      f_equal. apply Huniq; [by left|done].
    + destruct (scan_step sk q (l1 ++ p :: l2)) as [_ ->]; [|done].
      apply IH. intros q' Hq'. apply Huniq. by right.
Qed.

Lemma infer_user_id_outcome path folder sk :
  outcome (load_private_key P path) = Ok sk ->
  outcome (infer_user_id P path folder)
  = outcome (scan_public_keys P sk (rglob P folder "*.pem")).
Proof.
  intros H. unfold infer_user_id. rewrite (bind_ok _ _ _ H). cbn [outcome].
  by rewrite bind_emit.
Qed.

End Resolver.

Lemma candidate_matches_by_trial (P : Platform) (sk : PrivateKey P) p found :
  outcome (try_public_key P sk p) = Ok found ->
  (found = true <-> candidate_matches P sk p).
Proof.
  intros H. destruct (try_public_key_outcome P sk p) as (found' & H' & Hiff).
  rewrite H in H'. by injection H' as ->.
Qed.

End ResolverFacts.

(* ===================================================================== *)
(** * Facts about [hybrid_decrypt] *)
(* ===================================================================== *)

Module CipherFacts.
Import PyStr Py Env Deanonymizer Props EffectFacts.

Section Cipher.
Context (P : Platform).

Lemma hybrid_decrypt_absent pkg sk uid :
  lacks_slot pkg uid -> hybrid_decrypt P pkg sk uid = Raise (missing_aes_key uid).
Proof.
  intros (keys & Hk & Hget). unfold hybrid_decrypt.
  rewrite Hk, result_bind_ok. cbn [py_in]. rewrite Hget, result_bind_ok.
  reflexivity.
Qed.

Lemma hybrid_decrypt_present pkg sk uid wrapped :
  has_slot pkg uid wrapped ->
  hybrid_decrypt P pkg sk uid
  = unwrap_aes_key P pkg sk uid ≫= decrypt_payload P pkg.
Proof.
  intros (keys & Hk & Hget). unfold hybrid_decrypt, unwrap_aes_key.
  rewrite Hk, !result_bind_ok. cbn [py_in subscript]. rewrite Hget, !result_bind_ok.
  cbn [bool_decide negb]. 
  destruct (b64decode_val P wrapped) as [ct|e]; [|done].
  rewrite !result_bind_ok.
  by destruct (rsa_oaep_decrypt P sk ct).
Qed.

Lemma unwrap_aes_key_present pkg sk uid wrapped :
  has_slot pkg uid wrapped ->
  unwrap_aes_key P pkg sk uid
  = b64decode_val P wrapped ≫= rsa_oaep_decrypt P sk.
Proof.
  intros (keys & Hk & Hget). unfold unwrap_aes_key.
  rewrite Hk, !result_bind_ok. cbn [subscript]. by rewrite Hget, !result_bind_ok.
Qed.

End Cipher.

End CipherFacts.

(* ===================================================================== *)
(** * Facts about [process_response_files] *)
(* ===================================================================== *)

Module BatchFacts.
Import PyStr Py Env Deanonymizer Props EffectFacts ResolverFacts.

(** ** One iteration *)

Section Batch.
Context (P : Platform) (output_folder reconstructed_folder : string)
        (private_key : PrivateKey P) (user_id : string).

Local Abbreviation record := (process_record P output_folder reconstructed_folder private_key user_id).
Local Abbreviation one := (process_one P output_folder reconstructed_folder private_key user_id).

Lemma save_reconstructed_events r v :
  Forall (fun ev => is_record_event (output_file_of reconstructed_folder r) ev = true)
         (trace (save_reconstructed P reconstructed_folder r v)).
Proof.
  unfold save_reconstructed. cbv zeta. mstep; [|done]. mstep.
  constructor; [apply String.eqb_refl|].
  mstep; [|done]. mstep; [|done]. rewrite bind_emit. cbn [trace].
  constructor; [apply String.eqb_refl|]. by repeat constructor.
Qed.

Lemma save_reconstructed_quiet_failure r v e :
  outcome (save_reconstructed P reconstructed_folder r v) = Raise e ->
  Forall (fun ev => is_quiet ev = true)
         (trace (save_reconstructed P reconstructed_folder r v)).
Proof.
  unfold save_reconstructed. mstep; [|done]. mstep.
  mstep; [|by repeat constructor]. mstep; [|by repeat constructor].
  rewrite bind_emit. by cbn [trace outcome].
Qed.

Lemma process_record_events r :
  Forall (fun ev => is_record_event (output_file_of reconstructed_folder r) ev = true)
         (trace (record r)).
Proof.
  unfold process_record.
  destruct (String.eqb (suffix r) ".json").
  { unfold load_json. rewrite !bind_assoc. mstep. constructor; [done|].
    repeat (mstep; [|done]). apply save_reconstructed_events. }
  destruct (String.eqb (suffix r) ".txt"); [|by repeat constructor].
  mstep. constructor; [done|]. mstep; [|done]. mstep. constructor; [done|].
  destruct (path_exists P _); cbn [negb]; [|by repeat constructor].
  unfold load_json. rewrite !bind_assoc. mstep. constructor; [done|].
  repeat (mstep; [|done]). apply save_reconstructed_events.
Qed.

Lemma process_record_quiet_failure r e :
  outcome (record r) = Raise e ->
  Forall (fun ev => is_quiet ev = true) (trace (record r)).
Proof.
  unfold process_record.
  destruct (String.eqb (suffix r) ".json").
  { unfold load_json. rewrite !bind_assoc. mstep. intros H. constructor; [done|]. revert H.
    repeat (mstep; [|done]). apply save_reconstructed_quiet_failure. }
  destruct (String.eqb (suffix r) ".txt"); [|done].
  mstep. mstep; [|by repeat constructor]. mstep.
  destruct (path_exists P _); cbn [negb]; [|done].
  unfold load_json. rewrite !bind_assoc. mstep. intros H. do 3 (constructor; [done|]). revert H.
  repeat (mstep; [|done]). apply save_reconstructed_quiet_failure.
Qed.

Lemma process_one_outcome r : outcome (one r) = Ok tt.
Proof.
  unfold process_one, try_except.
  destruct (outcome (record r)) as [[]|e] eqn:E; [done|done].
Qed.

Lemma process_one_trace r :
  trace (one r)
  = trace (record r) ++
    match outcome (record r) with
    | Ok _ => []
    | Raise e => [EvPrint (error_line r e)]
    end.
Proof.
  unfold process_one, try_except.
  destruct (outcome (record r)) as [[]|e] eqn:E; [by rewrite List.app_nil_r|done].
Qed.

Lemma process_one_events r :
  Forall (fun ev => is_key_load ev = false /\ is_catalog_scan ev = false)
         (trace (one r)).
Proof.
  rewrite process_one_trace. apply Forall_app. split.
  - eapply Forall_impl; [apply process_record_events|].
    intros ev Hev. by destruct ev.
  - destruct (outcome (record r)); by repeat constructor.
Qed.

Lemma failed_record_saved r e :
  outcome (record r) = Raise e ->
  saved (trace (one r)) = [] /\ printed (trace (one r)) = [error_line r e].
Proof.
  intros H. rewrite process_one_trace, H, saved_app, printed_app.
  destruct (quiet_saved_printed _ (process_record_quiet_failure r e H)) as [-> ->].
  done.
Qed.

Lemma successful_record_no_error r :
  outcome (record r) = Ok tt -> reported_errors (trace (one r)) = [].
Proof.
  intros H. rewrite process_one_trace, H, List.app_nil_r.
  unfold reported_errors. apply filter_none.
  pose proof (process_record_events r) as Hev.
  induction Hev as [|ev t Hev _ IH]; [by constructor|].
  unfold printed in *. cbn [omap list_omap].
  destruct ev; try done. cbn [is_record_event] in Hev.
  constructor; [|done]. by destruct (is_error_line line).
Qed.

Lemma saved_record_succeeds r o :
  saved (trace (record r)) = [o] -> outcome (record r) = Ok tt.
Proof.
  intros Hs. destruct (outcome (record r)) as [[]|e] eqn:E; [done|].
  destruct (quiet_saved_printed _ (process_record_quiet_failure r e E))
    as [Hnone _].
  by rewrite Hnone in Hs.
Qed.

Lemma successful_record_trace r :
  outcome (record r) = Ok tt -> trace (one r) = trace (record r).
Proof. intros H. by rewrite process_one_trace, H, List.app_nil_r. Qed.

Lemma process_one_touches r path :
  path <> output_file_of reconstructed_folder r ->
  Forall (fun ev => touches path ev = false) (trace (one r)).
Proof.
  intros Hne. rewrite process_one_trace. apply Forall_app. split.
  - eapply Forall_impl; [apply process_record_events|].
    intros ev Hev. destruct ev; try done; cbn [is_record_event touches] in *;
      apply String.eqb_eq in Hev as ->; by apply String.eqb_neq.
  - destruct (outcome _); by repeat constructor.
Qed.

End Batch.

(** ** The loop *)

Section Loop.
Context (P : Platform) (output_folder reconstructed_folder : string)
        (private_key : PrivateKey P) (user_id : string).

Local Abbreviation record_at fs := (process_record (written_over fs P) output_folder reconstructed_folder private_key user_id).
Local Abbreviation one_at fs := (process_one (written_over fs P) output_folder reconstructed_folder private_key user_id).
Local Abbreviation from fs := (process_records_from P fs output_folder reconstructed_folder private_key user_id).
Local Abbreviation records := (process_records P output_folder reconstructed_folder private_key user_id).

Lemma process_records_from_outcome rs : forall fs, outcome (from fs rs) = Ok tt.
Proof.
  induction rs as [|r rs IH]; intros fs; [done|].
  cbn [process_records_from].
  rewrite (bind_ok _ _ _ (process_one_outcome _ _ _ _ _ r)). cbn [outcome].
  apply IH.
Qed.

Lemma process_records_from_cons fs r rs :
  from fs (r :: rs)
  = MkM (trace (one_at fs r)
         ++ trace (from (foldl apply_event fs (trace (one_at fs r))) rs))
        (Ok tt).
Proof.
  cbn [process_records_from].
  rewrite (bind_ok _ _ _ (process_one_outcome _ _ _ _ _ r)).
  by rewrite process_records_from_outcome.
Qed.

Lemma process_records_from_app l1 : forall fs l2,
  trace (from fs (l1 ++ l2))
  = trace (from fs l1)
    ++ trace (from (foldl apply_event fs (trace (from fs l1))) l2).
Proof.
  induction l1 as [|r l1 IH]; intros fs l2; [done|].
  rewrite <-List.app_comm_cons, !process_records_from_cons. cbn [trace].
  by rewrite IH, foldl_app, List.app_assoc.
Qed.

Lemma process_records_from_events rs : forall fs,
  Forall (fun ev => is_key_load ev = false /\ is_catalog_scan ev = false)
         (trace (from fs rs)).
Proof.
  induction rs as [|r rs IH]; intros fs; [by constructor|].
  rewrite process_records_from_cons. cbn [trace]. apply Forall_app.
  split; [apply process_one_events|apply IH].
Qed.

Lemma process_records_outcome rs : outcome (records rs) = Ok tt.
Proof. apply process_records_from_outcome. Qed.

Lemma process_records_events rs :
  Forall (fun ev => is_key_load ev = false /\ is_catalog_scan ev = false)
         (trace (records rs)).
Proof. apply process_records_from_events. Qed.







Lemma process_records_app l1 l2 :
  trace (records (l1 ++ l2))
  = trace (records l1) ++ trace (from (store (trace (records l1))) l2).
Proof. apply process_records_from_app. Qed.

(** ** A failed iteration and the iterations after it *)






End Loop.

Section Run.
Context (P : Platform).

Lemma scan_trace_events (sk : PrivateKey P) l :
  Forall (fun ev => is_key_load ev = false /\ is_catalog_scan ev = false)
         (trace (scan_public_keys P sk l)).
Proof.
  induction l as [|q l IH]; [by constructor|].
  cbn [scan_public_keys].
  destruct (try_public_key_outcome P sk q) as (found & Hout & _).
  rewrite (bind_ok _ _ _ Hout). cbn [trace]. rewrite try_public_key_trace.
  constructor; [done|]. destruct found; [by constructor|done].
Qed.

Lemma infer_user_id_trace path folder uid :
  outcome (infer_user_id P path folder) = Ok uid ->
  exists sk, outcome (load_private_key P path) = Ok sk /\
    trace (infer_user_id P path folder)
    = EvLoadPrivateKey path :: EvRglob folder "*.pem"
      :: trace (scan_public_keys P sk (rglob P folder "*.pem")).
Proof.
  unfold infer_user_id.
  destruct (outcome (load_private_key P path)) as [sk|e] eqn:E.
  - rewrite (bind_ok _ _ _ E). cbn [trace outcome]. rewrite bind_emit.
    cbn [trace outcome]. rewrite load_private_key_trace. intros _. by exists sk.
  - by rewrite (bind_raise _ _ _ E).
Qed.

Lemma infer_user_id_counts path folder uid :
  outcome (infer_user_id P path folder) = Ok uid ->
  key_loads (trace (infer_user_id P path folder)) = 1 /\
  catalog_scans (trace (infer_user_id P path folder)) = 1.
Proof.
  intros (sk & _ & ->)%infer_user_id_trace.
  pose proof (scan_trace_events sk (rglob P folder "*.pem")) as Hev.
  unfold key_loads, catalog_scans. cbn [List.filter is_key_load is_catalog_scan].
  rewrite String.eqb_refl.
  rewrite !filter_none; [done|..]; eapply Forall_impl; eauto; by intros ? [? ?].
Qed.

Lemma process_response_files_run resp out rec priv pub uid sk :
  makedirs P rec = Ok tt ->
  rglob P resp "*" <> [] ->
  outcome (infer_user_id P priv pub) = Ok uid ->
  outcome (load_private_key P priv) = Ok sk ->
  process_response_files P resp out rec priv pub
  = MkM ([EvMakedirs rec; EvRglob resp "*"]
         ++ (trace (infer_user_id P priv pub) ++ trace (load_private_key P priv))
         ++ trace (process_records P out rec sk uid (rglob P resp "*")))
        (Ok tt).
Proof.
  intros Hmk Hne Hinfer Hload. unfold process_response_files.
  rewrite bind_emit, Hmk, bind_lift_ok, bind_emit. cbn [trace outcome].
  destruct (rglob P resp "*") as [|r rs] eqn:Hfiles; [done|].
  rewrite (bind_ok _ _ _ Hinfer). cbn [trace outcome].
  rewrite (bind_ok _ _ _ Hload). cbn [trace outcome].
  rewrite process_records_outcome. cbn [app]. by rewrite <-!List.app_assoc.
Qed.

Lemma process_response_files_empty resp out rec priv pub :
  makedirs P rec = Ok tt ->
  rglob P resp "*" = [] ->
  process_response_files P resp out rec priv pub
  = MkM [EvMakedirs rec; EvRglob resp "*"; EvPrint (no_files_notice resp)] (Ok tt).
Proof.
  intros Hmk Hfiles. unfold process_response_files.
  by rewrite bind_emit, Hmk, bind_lift_ok, bind_emit, Hfiles.
Qed.

End Run.

End BatchFacts.

(* ===================================================================== *)
(** * The properties *)
(* ===================================================================== *)

Import PyStr Py Env Deanonymizer Fixture Fixture2 Props.
Import PyStrFacts ReconstructorFacts EffectFacts ResolverFacts CipherFacts BatchFacts.

(** C1. Identity resolution.  With the private key loaded, [infer_user_id]
    returns only the stem of a catalog file whose public key has the
    modulus of the private key, and it returns the stem of the first such
    file.  If exactly one file of the catalog matches, the result is that
    file's stem wherever the file stands, and scanning any reordering of
    the catalog gives the same stem.  If no file matches, it raises
    [ValueError] "No matching public key found for the provided private
    key.", which is how the script reports that no identity matches. *)
Theorem infer_user_id_resolves P private_key_path public_keys_folder
    (private_key : PrivateKey P) :
  outcome (load_private_key P private_key_path) = Ok private_key ->
  let catalog := rglob P public_keys_folder "*.pem" in
  let resolved := outcome (infer_user_id P private_key_path public_keys_folder) in
  (forall user_id, resolved = Ok user_id ->
     exists p, In p catalog /\ stem p = user_id /\
               candidate_matches P private_key p) /\
  (forall l1 p l2, catalog = l1 ++ p :: l2 ->
     candidate_matches P private_key p ->
     (forall q, In q l1 -> ~ candidate_matches P private_key q) ->
     resolved = Ok (stem p)) /\
  (forall p, In p catalog -> candidate_matches P private_key p ->
     (forall q, In q catalog -> q <> p -> ~ candidate_matches P private_key q) ->
     resolved = Ok (stem p) /\
     forall reordered, Permutation catalog reordered ->
       outcome (scan_public_keys P private_key reordered) = Ok (stem p)) /\
  ((forall q, In q catalog -> ~ candidate_matches P private_key q) ->
     resolved = Raise no_matching_public_key).
Proof.
  intros Hload catalog resolved. subst resolved.
  rewrite (infer_user_id_outcome P _ _ _ Hload). fold catalog.
  split_and!.
  - intros uid. apply scan_sound.
  - intros l1 p l2 -> Hp Hl1. by apply scan_first_match.
  - intros p Hin Hp Hothers.
    assert (forall l, Permutation catalog l ->
              outcome (scan_public_keys P private_key l) = Ok (stem p)) as Hperm.
    { intros l Hl. apply scan_unique_match; [|done|].
      - eapply Permutation_in; eauto.
      - intros q Hq Hmq. destruct (candidate_matches_dec P private_key q) as [_|[]]; [|done].
        assert (In q catalog) as Hqc by (eapply Permutation_in; [symmetry|]; eauto).
        destruct (decide (q = p)) as [->|Hne]; [done|].
        destruct (Hothers q Hqc Hne Hmq). }
    split; [by apply Hperm|done].
  - apply scan_no_match.
Qed.

(** The fixture: alice's key among a foreign key, a file that is not a key
    and an Ed25519 key. *)
Lemma infer_user_id_resolves_witness :
  outcome (load_private_key platform "private_key.pem") = Ok alice_key /\
  outcome (infer_user_id platform "private_key.pem" "public_keys") = Ok "alice".
Proof.
  split; [reflexivity|].
  destruct (infer_user_id_resolves platform "private_key.pem" "public_keys"
              alice_key eq_refl) as (_ & Hfirst & _).
  apply (Hfirst [bob_pem; notes_pem; carol_pem] alice_pem []); [reflexivity| |].
  - apply (candidate_matches_by_trial platform alice_key alice_pem true);
      reflexivity.
  - intros q Hq Hm.
    apply (candidate_matches_by_trial platform alice_key q false) in Hm; [done|].
    destruct Hq as [<-|[<-|[<-|[]]]]; reflexivity.
Defined.

(** C2. Reconstruction.  [reconstruct_text] applies the pairs in the order
    given: a mapping in two parts is applied part after part, and each pair
    is one [replace] of the current text.  A [replace] of a non-empty
    placeholder replaces all its occurrences: it cuts the text at the
    occurrences, left to right and without overlap, into segments that do
    not contain the placeholder, and joins them by the original value.  The
    empty placeholder occurs before every character and after the last: the
    text is cut into its characters, and the original value is put before
    each of them and at the end.  A pair whose placeholder does not occur
    leaves the text as it is.  The text "Hello PERSON_1, from ORG_1"
    becomes "Hello Alice, from Acme". *)
Theorem reconstruct_text_in_sequence :
  (forall t m1 m2,
     reconstruct_text t (m1 ++ m2) = reconstruct_text (reconstruct_text t m1) m2) /\
  (forall t p o m,
     reconstruct_text t ((p, o) :: m) = reconstruct_text (replace t p o) m) /\
  (forall t p o, p <> "" -> replaces_all t p o (replace t p o)) /\
  (forall p o r c, p <> "" ->
     replace "" p o = "" /\
     replace (p +:+ r) p o = o +:+ replace r p o /\
     (~ is_prefix p (String c r) ->
      replace (String c r) p o = String c (replace r p o))) /\
  (forall t o,
     t = join "" (chars t) /\
     replace t "" o = join o ("" :: chars t ++ [""])) /\
  (forall o c r,
     replace "" "" o = o /\
     (chars c = [c] -> at_boundary r = true ->
      replace (c +:+ r) "" o = o +:+ c +:+ replace r "" o)) /\
  (forall t p o m,
     ~ occurs p t -> reconstruct_text t ((p, o) :: m) = reconstruct_text t m) /\
  reconstruct_text "Hello PERSON_1, from ORG_1"
    [("PERSON_1", "Alice"); ("ORG_1", "Acme")] = "Hello Alice, from Acme" /\
  reconstruct_text "ab" [("", "-"); ("b", "c")] = "-a-c-" /\
  reconstruct_text "né" [("", "-")] = "-n-é-".
Proof.
  split_and!.
  - apply reconstruct_text_app.
  - done.
  - intros t p o Hp. destruct (replace_segments t p o Hp) as (segs & ? & ? & ? & _).
    by exists segs.
  - intros p o r c Hp. split_and!.
    + by apply replace_nil.
    + by apply replace_match.
    + by apply replace_step.
  - intros t o. split; [by rewrite join_chars|]. apply interleave_join.
  - intros o c r. split; [apply interleave_nil_text|]. apply interleave_char.
  - intros t p o m Hno. cbn [reconstruct_text]. rewrite replace_absent; [done| |done].
    intros ->. apply Hno, occurs_nil_l.
  - reflexivity.
  - reflexivity.
  - reflexivity.
Qed.

(** A pair whose placeholder is absent, followed by one that is present. *)
Lemma reconstruct_text_in_sequence_witness :
  ~ occurs "ORG_9" "Hello PERSON_1" /\
  reconstruct_text "Hello PERSON_1" [("ORG_9", "Nobody"); ("PERSON_1", "Alice")]
  = "Hello Alice".
Proof.
  assert (~ occurs "ORG_9" "Hello PERSON_1") as H.
  { by apply contains_false. }
  split; [exact H|].
  destruct reconstruct_text_in_sequence as (_ & _ & _ & _ & _ & _ & Habsent & _).
  rewrite (Habsent _ _ _ _ H). reflexivity.
Defined.

(** C3. Missing identity.  When [encrypted_aes_keys] is a mapping without
    the identity, [hybrid_decrypt] raises the error of its own membership
    check, [ValueError] "No encrypted AES key found for user ID: <id>",
    whatever the libraries, the key and the rest of the envelope are. *)
Theorem hybrid_decrypt_missing_identity P encrypted_package
    (private_key : PrivateKey P) user_id keys :
  subscript encrypted_package "encrypted_aes_keys" = Ok (PDict keys) ->
  dict_get user_id keys = None ->
  hybrid_decrypt P encrypted_package private_key user_id
  = Raise (ValueError ("No encrypted AES key found for user ID: " +:+ user_id)).
Proof. intros Hk Hget. apply hybrid_decrypt_absent. by exists keys. Qed.

(** An envelope with slots for alice and bob, asked for carol. *)
Lemma hybrid_decrypt_missing_identity_witness :
  subscript wrong_key_envelope "encrypted_aes_keys"
    = Ok (PDict [("alice", PStr "Qk9C"); ("bob", PStr "Qk9C")]) /\
  dict_get "carol" [("alice", PStr "Qk9C"); ("bob", PStr "Qk9C")] = None /\
  hybrid_decrypt platform wrong_key_envelope alice_key "carol"
  = Raise (ValueError "No encrypted AES key found for user ID: carol").
Proof.
  split; [reflexivity|]. split; [reflexivity|].
  apply (hybrid_decrypt_missing_identity platform wrong_key_envelope alice_key
           "carol" [("alice", PStr "Qk9C"); ("bob", PStr "Qk9C")]); reflexivity.
Defined.




(** C5, as claimed: on the fixture a key wrapped for somebody else ends in
    [ValueError] "Decryption failed", a damaged payload in
    [UnicodeDecodeError]; there is no single decryption error. *)
Lemma decryption_failures_differ : ~ uniform_decryption_failure platform.
Proof.
  intros (e0 & H).
  assert (has_slot wrong_key_envelope "alice" (PStr "Qk9C")) as H1.
  { by eexists. }
  assert (has_slot corrupt_envelope "alice" (PStr "QUxJQ0U=")) as H2.
  { by eexists. }
  pose proof (H wrong_key_envelope alice_key "alice" _ _ H1 eq_refl) as E1.
  pose proof (H corrupt_envelope alice_key "alice" _ _ H2 eq_refl) as E2.
  rewrite <-E2 in E1. discriminate E1.
Qed.

(** C5, amended.  For an identity that has a slot, [hybrid_decrypt] is the
    unwrapping of the AES key followed by the decryption of the payload,
    and nothing is caught or wrapped: an exception raised by [b64decode] or
    by the RSA-OAEP decryption of the slot, or raised in the payload stage,
    reaches the caller as it was raised, and [hybrid_decrypt] raises no
    other exception. *)
Theorem hybrid_decrypt_propagates P encrypted_package
    (private_key : PrivateKey P) user_id wrapped :
  has_slot encrypted_package user_id wrapped ->
  let decrypted := hybrid_decrypt P encrypted_package private_key user_id in
  decrypted = unwrap_aes_key P encrypted_package private_key user_id
              ≫= decrypt_payload P encrypted_package /\
  (forall e, b64decode_val P wrapped = Raise e -> decrypted = Raise e) /\
  (forall ciphertext e,
     b64decode_val P wrapped = Ok ciphertext ->
     rsa_oaep_decrypt P private_key ciphertext = Raise e ->
     decrypted = Raise e) /\
  (forall aes_key e,
     unwrap_aes_key P encrypted_package private_key user_id = Ok aes_key ->
     decrypt_payload P encrypted_package aes_key = Raise e ->
     decrypted = Raise e) /\
  (forall e, decrypted = Raise e ->
     b64decode_val P wrapped = Raise e \/
     (exists ciphertext,
        b64decode_val P wrapped = Ok ciphertext /\
        rsa_oaep_decrypt P private_key ciphertext = Raise e) \/
     (exists aes_key,
        unwrap_aes_key P encrypted_package private_key user_id = Ok aes_key /\
        decrypt_payload P encrypted_package aes_key = Raise e)).
Proof.
  intros Hslot decrypted. subst decrypted.
  rewrite (hybrid_decrypt_present P _ _ _ _ Hslot).
  rewrite (unwrap_aes_key_present P _ _ _ _ Hslot).
  split_and!.
  - done.
  - by intros e ->.
  - intros ct e -> Hrsa. by rewrite result_bind_ok, Hrsa.
  - intros k e -> Hp. by rewrite result_bind_ok.
  - intros e. destruct (b64decode_val P wrapped) as [ct|e1].
    + rewrite result_bind_ok.
      destruct (rsa_oaep_decrypt P private_key ct) as [k|e2] eqn:Hrsa.
      * rewrite result_bind_ok. intros Hp. right; right. by exists k.
      * intros [= <-]. right; left. by exists ct.
    + intros [= <-]. by left.
Qed.

(** The fixture: alice's slot holds a key wrapped for bob. *)
Lemma hybrid_decrypt_propagates_witness :
  has_slot wrong_key_envelope "alice" (PStr "Qk9C") /\
  hybrid_decrypt platform wrong_key_envelope alice_key "alice"
  = Raise (ValueError "Decryption failed").
Proof.
  assert (has_slot wrong_key_envelope "alice" (PStr "Qk9C")) as H.
  { exists [("alice", PStr "Qk9C"); ("bob", PStr "Qk9C")]. split; reflexivity. }
  split; [exact H|].
  destruct (hybrid_decrypt_propagates platform wrong_key_envelope alice_key
              "alice" (PStr "Qk9C") H) as (_ & _ & Hrsa & _).
  apply (Hrsa (b "BOB")); reflexivity.
Defined.

(** C6, as claimed: on the fixture, with three response files, the
    private key is not loaded exactly once. *)
Lemma private_key_is_not_loaded_once :
  rglob platform "response" "*" <> [] /\
  key_loads (trace (process_response_files platform "response" "output"
                      "reconstructed" "private_key.pem" "public_keys")) <> 1.
Proof. split; by vm_compute. Qed.

(** C6, amended.  In a run over a non-empty collection whose set-up
    succeeds, the private key is loaded exactly twice, once inside
    [infer_user_id] and once by [process_response_files] itself, and the
    identity is resolved exactly once; both loads and the resolution come
    before the events of the first record, and the loop over the records
    loads no key and resolves no identity. *)
Theorem private_key_is_loaded_twice P response_folder output_folder
    reconstructed_folder private_key_path public_keys_folder user_id
    (private_key : PrivateKey P) :
  makedirs P reconstructed_folder = Ok tt ->
  rglob P response_folder "*" <> [] ->
  outcome (infer_user_id P private_key_path public_keys_folder) = Ok user_id ->
  outcome (load_private_key P private_key_path) = Ok private_key ->
  let run := process_response_files P response_folder output_folder
               reconstructed_folder private_key_path public_keys_folder in
  let setup := [EvMakedirs reconstructed_folder; EvRglob response_folder "*"]
               ++ trace (infer_user_id P private_key_path public_keys_folder)
               ++ trace (load_private_key P private_key_path) in
  let loop := trace (process_records P output_folder reconstructed_folder
                       private_key user_id (rglob P response_folder "*")) in
  trace run = setup ++ loop /\
  key_loads (trace (infer_user_id P private_key_path public_keys_folder)) = 1 /\
  trace (load_private_key P private_key_path) = [EvLoadPrivateKey private_key_path] /\
  key_loads setup = 2 /\ catalog_scans setup = 1 /\
  key_loads loop = 0 /\ catalog_scans loop = 0 /\
  key_loads (trace run) = 2 /\ catalog_scans (trace run) = 1.
Proof.
  intros Hmk Hne Hinfer Hload run setup loop.
  destruct (infer_user_id_counts P _ _ _ Hinfer) as [Hk Hs].
  pose proof (load_private_key_trace P private_key_path) as Hl.
  pose proof (process_records_events P output_folder reconstructed_folder
                private_key user_id (rglob P response_folder "*")) as Hev.
  assert (trace run = setup ++ loop) as Hrun.
  { subst run. by rewrite (process_response_files_run P _ _ _ _ _ _ _ Hmk Hne Hinfer Hload). }
  assert (key_loads loop = 0 /\ catalog_scans loop = 0) as [Hkl Hsl].
  { unfold key_loads, catalog_scans.
    rewrite !filter_none; [done|..]; eapply Forall_impl; eauto; by intros ? [? ?]. }
  assert (key_loads setup = 2 /\ catalog_scans setup = 1) as [Hks Hss].
  { subst setup. unfold key_loads, catalog_scans in *.
    rewrite !filter_count_app, Hk, Hs, Hl. by cbn. }
  split_and!; try done.
  - rewrite Hrun. unfold key_loads in *. rewrite filter_count_app. lia.
  - rewrite Hrun. unfold catalog_scans in *. rewrite filter_count_app. lia.
Qed.

(** The fixture run. *)
Lemma private_key_is_loaded_twice_witness :
  makedirs platform "reconstructed" = Ok tt /\
  rglob platform "response" "*" <> [] /\
  outcome (infer_user_id platform "private_key.pem" "public_keys") = Ok "alice" /\
  outcome (load_private_key platform "private_key.pem") = Ok alice_key /\
  key_loads (trace (process_response_files platform "response" "output"
                      "reconstructed" "private_key.pem" "public_keys")) = 2.
Proof.
  assert (rglob platform "response" "*" <> []) as Hne by (by vm_compute).
  split; [reflexivity|]. split; [exact Hne|]. split; [reflexivity|].
  split; [reflexivity|].
  apply (private_key_is_loaded_twice platform "response" "output" "reconstructed"
           "private_key.pem" "public_keys" "alice" alice_key eq_refl Hne eq_refl
           eq_refl).
Defined.

(** C7, as claimed: "PERSON_1" is not a substring of "PERSON_", yet
    reconstructing "PERSON_11" once gives "PERSON_1" and twice gives
    "PERSON_": a replacement can complete a placeholder at its edge. *)
Lemma idempotence_fails_on_junctions :
  let m := [("PERSON_1", "PERSON_")] in
  (forall p o, In p (placeholders m) -> In o (originals m) -> ~ occurs p o) /\
  reconstruct_text (reconstruct_text "PERSON_11" m) m
  <> reconstruct_text "PERSON_11" m.
Proof.
  split; [|by vm_compute].
  intros p o [<-|[]] [<-|[]]. by apply contains_false.
Qed.

(** C7, amended.  [reconstruct_text] is idempotent on every text when no
    placeholder of the mapping overlaps an original value of it: neither is
    a substring of the other and no non-empty end of one begins the other.
    With an empty mapping it is the identity. *)
Theorem reconstruct_text_idempotent t m :
  no_overlap m ->
  reconstruct_text (reconstruct_text t m) m = reconstruct_text t m /\
  reconstruct_text t [] = t.
Proof. intros H. split; [by apply reconstruct_text_idem|done]. Qed.

(** The mapping of the fixture has no overlap. *)
Lemma reconstruct_text_idempotent_witness :
  no_overlap the_mapping /\
  reconstruct_text (reconstruct_text "PERSON_1 and PERSON_11 of ORG_1" the_mapping)
    the_mapping = "Alice and Alice1 of Acme".
Proof.
  assert (no_overlap the_mapping) as H by (apply no_overlapb_spec; vm_compute; reflexivity).
  split; [exact H|].
  destruct (reconstruct_text_idempotent "PERSON_1 and PERSON_11 of ORG_1" the_mapping H)
    as [-> _].
  reflexivity.
Defined.

(** C8, as claimed: on the fixture the folder [inbox] lists nothing, and
    the run that is to write into [private_key.pem], which is a file, ends
    in the error of [os.makedirs]: it raises, and it prints no notice. *)
Lemma empty_input_can_end_in_an_error :
  rglob platform "inbox" "*" = [] /\
  process_response_files platform "inbox" "output" "private_key.pem"
    "private_key.pem" "public_keys"
  = MkM [EvMakedirs "private_key.pem"]
        (Raise (Exn "FileExistsError"
                  "[Errno 17] File exists: 'private_key.pem'")).
Proof. split; reflexivity. Qed.

(** C8, amended.  When the output folder can be created and the response
    folder lists nothing, the run ends normally after printing the one
    notice: nothing is written, no key is loaded and no identity is
    resolved. *)
Theorem empty_input_is_reported_once P response_folder output_folder
    reconstructed_folder private_key_path public_keys_folder :
  makedirs P reconstructed_folder = Ok tt ->
  rglob P response_folder "*" = [] ->
  let run := process_response_files P response_folder output_folder
               reconstructed_folder private_key_path public_keys_folder in
  outcome run = Ok tt /\
  trace run = [EvMakedirs reconstructed_folder; EvRglob response_folder "*";
               EvPrint (no_files_notice response_folder)] /\
  saved (trace run) = [] /\
  store (trace run) = ∅ /\
  printed (trace run) = [no_files_notice response_folder] /\
  key_loads (trace run) = 0 /\
  catalog_scans (trace run) = 0.
Proof.
  intros Hmk Hfiles run. subst run.
  rewrite (process_response_files_empty P _ _ _ _ _ Hmk Hfiles).
  by split_and!.
Qed.

(** The fixture has no folder "inbox". *)
Lemma empty_input_is_reported_once_witness :
  makedirs platform "reconstructed" = Ok tt /\
  rglob platform "inbox" "*" = [] /\
  process_response_files platform "inbox" "output" "reconstructed"
    "private_key.pem" "public_keys"
  = MkM [EvMakedirs "reconstructed"; EvRglob "inbox" "*";
         EvPrint "No files found in the 'inbox' folder. Please check your input."]
        (Ok tt).
Proof.
  split; [reflexivity|]. split; [reflexivity|].
  destruct (empty_input_is_reported_once platform "inbox" "output" "reconstructed"
              "private_key.pem" "public_keys" eq_refl eq_refl) as (Ho & Ht & _).
  rewrite <-(M_eta (process_response_files _ _ _ _ _ _)), Ho, Ht. reflexivity.
Defined.

(** C9. The membership check comes first.  For a mapping
    [encrypted_aes_keys] without the identity, the result of
    [hybrid_decrypt] is the missing-identity error for every platform,
    every private key and every content of the other fields: two calls
    that share only that mapping agree.  No result of base64 decoding or of
    a cryptographic operation can therefore have been consulted. *)
Theorem hybrid_decrypt_checks_membership_first
    (P1 P2 : Platform) (package1 package2 : pyval)
    (private_key1 : PrivateKey P1) (private_key2 : PrivateKey P2)
    (user_id : string) (keys : list (string * pyval)) :
  subscript package1 "encrypted_aes_keys" = Ok (PDict keys) ->
  subscript package2 "encrypted_aes_keys" = Ok (PDict keys) ->
  dict_get user_id keys = None ->
  hybrid_decrypt P1 package1 private_key1 user_id = Raise (missing_aes_key user_id) /\
  hybrid_decrypt P2 package2 private_key2 user_id
  = hybrid_decrypt P1 package1 private_key1 user_id.
Proof.
  intros H1 H2 Hget.
  rewrite !hybrid_decrypt_absent; [done|by exists keys..].
Qed.

(** An envelope whose [iv] is not base64 and whose [encrypted_data] is a
    number. *)
Lemma hybrid_decrypt_checks_membership_first_witness :
  subscript foreign_envelope "encrypted_aes_keys" = Ok (PDict [("bob", PStr "Qk9C")]) /\
  subscript (PDict [("encrypted_aes_keys", PDict [("bob", PStr "Qk9C")])])
    "encrypted_aes_keys" = Ok (PDict [("bob", PStr "Qk9C")]) /\
  dict_get "alice" [("bob", PStr "Qk9C")] = None /\
  hybrid_decrypt platform foreign_envelope alice_key "alice"
  = Raise (missing_aes_key "alice").
Proof.
  split; [reflexivity|]. split; [reflexivity|]. split; [reflexivity|].
  apply (hybrid_decrypt_checks_membership_first platform platform
           foreign_envelope
           (PDict [("encrypted_aes_keys", PDict [("bob", PStr "Qk9C")])])
           alice_key bob_key "alice" [("bob", PStr "Qk9C")]); reflexivity.
Defined.

(** C10. The empty placeholder.  For a non-empty [v], the pair [("", v)]
    turns a text into [v] joined around each of its characters: [v] before
    every character and after the last; "ab" becomes
    [v ++ "a" ++ v ++ "b" ++ v], and a character outside ASCII is kept
    whole.  The result has the characters of the text and those of one
    copy of [v] more than the text has characters (for [v] and a text that
    begin with a character, as every [str] does), and it is not the text:
    the text is changed. *)
Theorem empty_placeholder_interleaves t v :
  v <> "" ->
  reconstruct_text t [("", v)] = join v ("" :: chars t ++ [""]) /\
  reconstruct_text "ab" [("", v)] = v +:+ "a" +:+ v +:+ "b" +:+ v /\
  reconstruct_text "né" [("", v)] = v +:+ "n" +:+ v +:+ "é" +:+ v /\
  (at_boundary v = true -> at_boundary t = true ->
   len (reconstruct_text t [("", v)]) = len t + (len t + 1) * len v) /\
  reconstruct_text t [("", v)] <> t.
Proof.
  intros Hv. cbn [reconstruct_text]. unfold replace. split_and!.
  - apply interleave_join.
  - unfold interleave. cbn. by rewrite !str_app_nil_r.
  - unfold interleave. cbn. by rewrite !str_app_nil_r.
  - apply len_interleave.
  - intros Heq. apply (f_equal String.length) in Heq.
    rewrite length_interleave in Heq. destruct v; [done|]. simpl in Heq. lia.
Qed.

(** "ab" and "--", and a text of two characters outside ASCII. *)
Lemma empty_placeholder_interleaves_witness :
  "--" <> "" /\ reconstruct_text "ab" [("", "--")] = "--a--b--" /\
  reconstruct_text "日本" [("", "--")] = "--日--本--".
Proof.
  split; [done|].
  destruct (empty_placeholder_interleaves "ab" "--") as (H & _); [done|].
  destruct (empty_placeholder_interleaves "日本" "--") as (H' & _); [done|].
  rewrite H, H'. split; reflexivity.
Defined.

(* ===================================================================== *)
(** * Further facts *)
(* ===================================================================== *)

Module ReconstructorMore.
Import PyStr Py Env Deanonymizer Fixture Props MoreProps.
Import PyStrFacts ReconstructorFacts EffectFacts ResolverFacts CipherFacts BatchFacts.


Lemma replace_self s new : s <> "" -> replace s s new = new.
Proof.
  intros Hs. rewrite <-(str_app_nil_r s) at 1.
  rewrite replace_match by done. by rewrite replace_nil, str_app_nil_r.
Qed.

Lemma interleave_nil s : interleave "" s = s.
Proof.
  unfold interleave. rewrite str_app_nil_l.
  induction s as [|c s IH]; [done|]. cbn [spread].
  destruct (at_boundary s); by rewrite str_app_nil_l, IH.
Qed.

Lemma replace_same s p : replace s p p = s.
Proof.
  destruct p as [|a p]; [apply interleave_nil|].
  revert s. apply (replace_ind (String a p) (fun s => replace s (String a p) (String a p) = s));
    [done|..].
  - by apply replace_nil.
  - intros r IH. rewrite replace_match by done. by rewrite IH.
  - intros c r Hn IH. rewrite replace_step by done. by rewrite IH.
Qed.

Lemma reconstruct_text_same m : forall t,
  (forall po, In po m -> fst po = snd po) -> reconstruct_text t m = t.
Proof.
  induction m as [|[p o] m IH]; intros t H; [done|].
  cbn [reconstruct_text]. pose proof (H (p, o) (or_introl eq_refl)) as E.
  simpl in E. subst o.
  rewrite replace_same. apply IH. intros po Hpo. apply H. by right.
Qed.

End ReconstructorMore.

Module ResolverMore.
Import PyStr Py Env Deanonymizer Fixture Props MoreProps.
Import PyStrFacts ReconstructorFacts EffectFacts ResolverFacts CipherFacts BatchFacts.

Section ResolverMore.
Context (P : Platform).
Implicit Types (sk : PrivateKey P) (p q : Path).

Lemma unusable_candidate_no_match sk q :
  unusable_candidate P q -> ~ candidate_matches P sk q.
Proof.
  intros [(e & He)|[(d & e & Hd & He)|(d & pk & e & Hd & Hpk & He)]]
         (d' & pk' & n & Hd' & Hpk' & _ & Hn); congruence.
Qed.

Lemma scan_skip sk l1 q l2 :
  ~ candidate_matches P sk q ->
  outcome (scan_public_keys P sk (l1 ++ q :: l2))
  = outcome (scan_public_keys P sk (l1 ++ l2)).
Proof.
  intros Hq. induction l1 as [|p l1 IH]; simpl app.
  - by apply scan_step.
  - destruct (candidate_matches_dec P sk p) as [Hp|Hp].
    + destruct (scan_step P sk p (l1 ++ q :: l2)) as [-> _]; [|done].
      by destruct (scan_step P sk p (l1 ++ l2)) as [-> _].
    + destruct (scan_step P sk p (l1 ++ q :: l2)) as [_ ->]; [|done].
      by destruct (scan_step P sk p (l1 ++ l2)) as [_ ->].
Qed.

Lemma scan_step_trace sk p rest :
  (candidate_matches P sk p ->
   trace (scan_public_keys P sk (p :: rest)) = [EvLoadPublicKey (path_str p)]) /\
  (~ candidate_matches P sk p ->
   trace (scan_public_keys P sk (p :: rest))
   = EvLoadPublicKey (path_str p) :: trace (scan_public_keys P sk rest)).
Proof.
  cbn [scan_public_keys].
  destruct (try_public_key_outcome P sk p) as (found & Hout & Hfound).
  rewrite (bind_ok _ _ _ Hout). cbn [trace]. rewrite try_public_key_trace.
  destruct found; split; intros H; try done.
  - destruct H. by apply Hfound.
  - apply Hfound in H. done.
Qed.

Lemma scan_trace_first_match sk l1 p l2 :
  (forall q, In q l1 -> ~ candidate_matches P sk q) ->
  candidate_matches P sk p ->
  trace (scan_public_keys P sk (l1 ++ p :: l2))
  = map (fun q => EvLoadPublicKey (path_str q)) (l1 ++ [p]).
Proof.
  intros Hl1 Hp. induction l1 as [|q l1 IH]; simpl app.
  - by apply scan_step_trace.
  - destruct (scan_step_trace sk q (l1 ++ p :: l2)) as [_ ->].
    + cbn [map]. f_equal. apply IH. intros q' Hq'. apply Hl1. by right.
    + apply Hl1. by left.
Qed.

Lemma scan_trace_no_match sk l :
  (forall q, In q l -> ~ candidate_matches P sk q) ->
  trace (scan_public_keys P sk l)
  = map (fun q => EvLoadPublicKey (path_str q)) l.
Proof.
  induction l as [|q l IH]; intros H; [done|].
  destruct (scan_step_trace sk q l) as [_ ->].
  - cbn [map]. f_equal. apply IH. intros q' Hq'. apply H. by right.
  - apply H. by left.
Qed.

Lemma infer_user_id_eq path folder sk :
  outcome (load_private_key P path) = Ok sk ->
  infer_user_id P path folder
  = MkM (EvLoadPrivateKey path :: EvRglob folder "*.pem"
         :: trace (scan_public_keys P sk (rglob P folder "*.pem")))
        (outcome (scan_public_keys P sk (rglob P folder "*.pem"))).
Proof.
  intros H. unfold infer_user_id. rewrite (bind_ok _ _ _ H).
  rewrite bind_emit, load_private_key_trace. done.
Qed.

Lemma load_private_key_eq path :
  load_private_key P path
  = MkM [EvLoadPrivateKey path]
        (read_file P path ≫= load_pem_private_key P).
Proof.
  unfold load_private_key. rewrite bind_emit.
  destruct (read_file P path) as [data|e];
    [rewrite bind_lift_ok|rewrite bind_lift_raise]; done.
Qed.

Lemma no_modulus_no_match sk e q :
  private_modulus P sk = Raise e -> ~ candidate_matches P sk q.
Proof. intros H (d & pk & n & _ & _ & Hn & _). congruence. Qed.

End ResolverMore.
End ResolverMore.

Module CipherMore.
Import PyStr Py Env Deanonymizer Fixture Props MoreProps.
Import PyStrFacts ReconstructorFacts EffectFacts ResolverFacts CipherFacts BatchFacts.

Section CipherMore.
Context (P : Platform).

Lemma decrypt_payload_fields pkg1 pkg2 k :
  subscript pkg1 "iv" = subscript pkg2 "iv" ->
  subscript pkg1 "encrypted_data" = subscript pkg2 "encrypted_data" ->
  decrypt_payload P pkg1 k = decrypt_payload P pkg2 k.
Proof. intros H1 H2. unfold decrypt_payload. by rewrite H1, H2. Qed.

Lemma existsb_is_str uid items :
  existsb (is_str uid) items = true <-> In (PStr uid) items.
Proof.
  rewrite existsb_exists. split.
  - intros (v & Hin & Hv). destruct v; try done. simpl in Hv.
    apply String.eqb_eq in Hv as ->. done.
  - intros Hin. exists (PStr uid). split; [done|]. apply String.eqb_refl.
Qed.

End CipherMore.
End CipherMore.

Module BatchMore.
Import PyStr Py Env Deanonymizer Fixture Props MoreProps.
Import PyStrFacts ReconstructorFacts EffectFacts ResolverFacts CipherFacts BatchFacts.


Lemma printed_cons_quiet ev t :
  is_quiet ev = true -> printed (ev :: t) = printed t /\ saved (ev :: t) = saved t.
Proof. by destruct ev. Qed.

Ltac drop_quiet :=
  repeat first
    [ rewrite (proj1 (printed_cons_quiet (EvRead _) _ eq_refl))
    | rewrite (proj2 (printed_cons_quiet (EvRead _) _ eq_refl))
    | rewrite (proj1 (printed_cons_quiet (EvExists _) _ eq_refl))
    | rewrite (proj2 (printed_cons_quiet (EvExists _) _ eq_refl)) ].

Lemma store_lookup_touched t : forall (fs : gmap string string) path,
  is_Some (foldl apply_event fs t !! path) ->
  is_Some (fs !! path) \/ Exists (fun ev => touches path ev = true) t.
Proof.
  induction t as [|ev t IH]; intros fs path H; [by left|].
  cbn [foldl] in H. apply IH in H as [H|H]; [|right; by constructor 2].
  destruct (touches path ev) eqn:E; [right; by constructor 1|].
  left. by rewrite apply_event_frame in H.
Qed.

Section BatchMore.
Context (P : Platform) (output_folder reconstructed_folder : string)
        (private_key : PrivateKey P) (user_id : string).

Local Abbreviation record := (process_record P output_folder reconstructed_folder private_key user_id).
Local Abbreviation one := (process_one P output_folder reconstructed_folder private_key user_id).
Local Abbreviation save := (save_reconstructed P reconstructed_folder).
Local Abbreviation out := (output_file_of reconstructed_folder).

Lemma save_reconstructed_str r s encoded :
  open_for_writing P (out r) = Ok tt ->
  utf8_encode P s = Ok encoded ->
  save r (PStr s)
  = MkM [EvOpenWrite (out r); EvWrite (out r) s;
         EvPrint ("Reconstructed text saved to " +:+ out r)] (Ok tt).
Proof.
  intros Hopen Henc. unfold save_reconstructed. cbv zeta.
  rewrite Hopen, bind_lift_ok, bind_emit. cbn [write_arg].
  by rewrite bind_lift_ok, Henc, bind_lift_ok, bind_emit.
Qed.


Lemma save_reconstructed_success r v :
  outcome (save r v) = Ok tt ->
  exists s, v = PStr s /\
    trace (save r v)
    = [EvOpenWrite (out r); EvWrite (out r) s;
       EvPrint ("Reconstructed text saved to " +:+ out r)].
Proof.
  unfold save_reconstructed. cbv zeta. mstep; [|done]. mstep.
  destruct v; try done. cbn [write_arg]. rewrite bind_lift_ok.
  mstep; [|done]. intros _. by exists s.
Qed.

Lemma process_record_json r data doc text env mapping v :
  suffix r = ".json" ->
  read_file P (path_str r) = Ok data ->
  json_loads P data = Ok doc ->
  subscript doc "anonymized_text" = Ok text ->
  subscript doc "encrypted_mapping" = Ok env ->
  hybrid_decrypt P env private_key user_id = Ok mapping ->
  reconstruct_text_dyn text mapping = Ok v ->
  record r = MkM (EvRead (path_str r) :: trace (save r v)) (outcome (save r v)).
Proof.
  intros Hsuf Hread Hjson Htext Henv Hdec Hrec.
  unfold process_record, load_json. rewrite Hsuf. cbn [String.eqb Ascii.eqb Bool.eqb].
  rewrite !bind_assoc, bind_emit, Hread, bind_lift_ok, Hjson, bind_lift_ok.
  by rewrite Htext, bind_lift_ok, Henv, bind_lift_ok, Hdec, bind_lift_ok, Hrec,
    bind_lift_ok.
Qed.

Lemma process_record_txt r reworked data doc env mapping v :
  suffix r = ".txt" ->
  read_file P (path_str r) = Ok reworked ->
  path_exists P (mapping_file_of output_folder r) = true ->
  read_file P (mapping_file_of output_folder r) = Ok data ->
  json_loads P data = Ok doc ->
  subscript doc "encrypted_mapping" = Ok env ->
  hybrid_decrypt P env private_key user_id = Ok mapping ->
  reconstruct_text_dyn (PStr reworked) mapping = Ok v ->
  record r
  = MkM (EvRead (path_str r) :: EvExists (mapping_file_of output_folder r)
         :: EvRead (mapping_file_of output_folder r) :: trace (save r v))
        (outcome (save r v)).
Proof.
  intros Hsuf Hread Hex Hmap Hjson Henv Hdec Hrec.
  unfold process_record, load_json.
  rewrite Hsuf. cbn [String.eqb Ascii.eqb Bool.eqb].
  rewrite bind_emit, Hread, bind_lift_ok. cbv zeta. rewrite bind_emit, Hex. cbn [negb].
  rewrite !bind_assoc, bind_emit, Hmap, bind_lift_ok, Hjson, bind_lift_ok.
  by rewrite Henv, bind_lift_ok, Hdec, bind_lift_ok, Hrec, bind_lift_ok.
Qed.

Lemma process_one_of_ok r t :
  record r = MkM t (Ok tt) -> one r = MkM t (Ok tt).
Proof. intros H. unfold process_one, try_except. by rewrite H. Qed.


(** A record whose body returns normally printed one line and completed at
    most one write. *)
Lemma process_record_success_counts r :
  outcome (record r) = Ok tt ->
  length (printed (trace (record r))) = 1 /\
  length (saved (trace (record r))) <= 1.
Proof.
  assert (forall v, outcome (save r v) = Ok tt ->
            length (printed (trace (save r v))) = 1 /\
            length (saved (trace (save r v))) <= 1) as Hsave.
  { intros v (s & -> & ->)%save_reconstructed_success. cbn. split; [done|lia]. }
  unfold process_record.
  destruct (String.eqb (suffix r) ".json").
  { unfold load_json. rewrite !bind_assoc. mstep.
    drop_quiet.
    repeat (mstep; [|done]). apply Hsave. }
  destruct (String.eqb (suffix r) ".txt"); [|cbn; intros; split; [done|lia]].
  mstep. mstep; [|done]. mstep.
  drop_quiet.
  destruct (path_exists P _); cbn [negb]; [|cbn; intros; split; [done|lia]].
  unfold load_json. rewrite !bind_assoc. mstep.
  drop_quiet.
  repeat (mstep; [|done]). apply Hsave.
Qed.

Lemma process_one_counts r :
  length (printed (trace (one r))) = 1 /\ length (saved (trace (one r))) <= 1.
Proof.
  destruct (outcome (record r)) as [[]|e] eqn:E.
  - rewrite (successful_record_trace P _ _ _ _ r E).
    by apply process_record_success_counts.
  - destruct (failed_record_saved P _ _ _ _ r e E) as [-> ->]. cbn. lia.
Qed.

Lemma process_one_saved_or_error r :
  length (saved (trace (one r))) + length (reported_errors (trace (one r))) <= 1.
Proof.
  destruct (outcome (record r)) as [[]|e] eqn:E.
  - rewrite (successful_record_no_error P _ _ _ _ r E).
    destruct (process_one_counts r) as [_ H]. cbn [length]. lia.
  - destruct (failed_record_saved P _ _ _ _ r e E) as [Hs Hp].
    unfold reported_errors. rewrite Hs, Hp. cbn [List.filter].
    rewrite is_error_line_error_line. cbn [length]. lia.
Qed.

(** Where the files a record touches are. *)
Lemma process_one_touches_own r path :
  Exists (fun ev => touches path ev = true) (trace (one r)) -> path = out r.
Proof.
  intros H. destruct (decide (path = out r)) as [|Hne]; [done|].
  pose proof (process_one_touches P output_folder _ private_key user_id r path Hne)
    as Hall.
  apply Exists_exists in H as (ev & Hin & Hev).
  rewrite Forall_forall in Hall. by rewrite (Hall ev Hin) in Hev.
Qed.

(** The last events of a record that saved its text. *)
Lemma process_record_saved_shape r o text :
  saved (trace (record r)) = [(o, text)] ->
  exists pre,
    trace (one r)
    = pre ++ [EvOpenWrite (out r); EvWrite (out r) text;
              EvPrint ("Reconstructed text saved to " +:+ out r)] /\
    o = out r.
Proof.
  intros Hs.
  pose proof (saved_record_succeeds P _ _ _ _ r (o, text) Hs) as Hok.
  rewrite (successful_record_trace P _ _ _ _ r Hok).
  revert Hs Hok.
  assert (forall v pre,
            saved (pre ++ trace (save r v)) = [(o, text)] ->
            saved pre = [] ->
            outcome (save r v) = Ok tt ->
            exists pre',
              pre ++ trace (save r v)
              = pre' ++ [EvOpenWrite (out r); EvWrite (out r) text;
                         EvPrint ("Reconstructed text saved to " +:+ out r)] /\
              o = out r) as Hsave.
  { intros v pre Hs Hpre (s & -> & Ht)%save_reconstructed_success.
    rewrite Ht in *. rewrite saved_app, Hpre in Hs. cbn in Hs.
    injection Hs as <- <-. by exists pre. }
  unfold process_record.
  destruct (String.eqb (suffix r) ".json").
  { unfold load_json. rewrite !bind_assoc. mstep.
    repeat (mstep; [|done]). intros Hs Hok.
    by apply (Hsave _ [EvRead _]). }
  destruct (String.eqb (suffix r) ".txt"); [|done].
  mstep. mstep; [|done]. mstep.
  destruct (path_exists P _); cbn [negb]; [|done].
  unfold load_json. rewrite !bind_assoc. mstep.
  repeat (mstep; [|done]). intros Hs Hok.
  by apply (Hsave _ [EvRead _; EvExists _; EvRead _]).
Qed.

Lemma store_after_saved_record r o text (fs : gmap string string) :
  saved (trace (record r)) = [(o, text)] ->
  foldl apply_event fs (trace (one r)) !! o = Some text /\ o = out r.
Proof.
  intros (pre & -> & ->)%process_record_saved_shape. split; [|done].
  rewrite foldl_app. cbn [foldl apply_event].
  rewrite lookup_insert_eq, lookup_insert_eq. done.
Qed.

End BatchMore.

Section LoopMore.
Context (P : Platform) (output_folder reconstructed_folder : string)
        (private_key : PrivateKey P) (user_id : string).

Local Abbreviation from fs := (process_records_from P fs output_folder reconstructed_folder private_key user_id).
Local Abbreviation records := (process_records P output_folder reconstructed_folder private_key user_id).
Local Abbreviation out := (output_file_of reconstructed_folder).

Lemma process_records_from_counts rs : forall fs,
  length (printed (trace (from fs rs))) = length rs /\
  length (saved (trace (from fs rs))) <= length rs.
Proof.
  induction rs as [|r rs IH]; intros fs; [by cbn|].
  rewrite process_records_from_cons. cbn [trace].
  rewrite printed_app, saved_app, !List.length_app.
  destruct (process_one_counts (written_over fs P) output_folder
              reconstructed_folder private_key user_id r) as [-> H].
  destruct (IH (foldl apply_event fs
                  (trace (process_one (written_over fs P) output_folder
                            reconstructed_folder private_key user_id r))))
    as [-> H'].
  cbn [length]. lia.
Qed.

Lemma process_records_from_saved_or_error rs : forall fs,
  length (saved (trace (from fs rs)))
  + length (reported_errors (trace (from fs rs)))
  <= length rs.
Proof.
  induction rs as [|r rs IH]; intros fs; [by cbn|].
  rewrite process_records_from_cons. cbn [trace]. unfold reported_errors in *.
  rewrite printed_app, saved_app, List.filter_app, !List.length_app.
  pose proof (process_one_saved_or_error (written_over fs P) output_folder
                reconstructed_folder private_key user_id r) as H.
  unfold reported_errors in H.
  specialize (IH (foldl apply_event fs
                    (trace (process_one (written_over fs P) output_folder
                              reconstructed_folder private_key user_id r)))).
  cbn [length]. lia.
Qed.

Lemma process_records_from_touches rs : forall fs path,
  Exists (fun ev => touches path ev = true) (trace (from fs rs)) ->
  exists r, In r rs /\ path = out r.
Proof.
  induction rs as [|r rs IH]; intros fs path; [by intros ?%Exists_nil|].
  rewrite process_records_from_cons. cbn [trace].
  intros [H|H]%Exists_app.
  - exists r. split; [by left|].
    by apply (process_one_touches_own (written_over fs P) output_folder
                reconstructed_folder private_key user_id).
  - destruct (IH _ _ H) as (r' & ? & ?). exists r'. split; [by right|done].
Qed.

Lemma process_records_from_untouched rs fs path :
  (forall r, In r rs -> out r <> path) ->
  foldl apply_event fs (trace (from fs rs)) !! path = fs !! path.
Proof.
  intros H. apply foldl_apply_frame. apply Forall_forall. intros ev Hin.
  destruct (touches path ev) eqn:E; [|done].
  destruct (process_records_from_touches rs fs path) as (r & Hr & ->).
  { apply Exists_exists. by exists ev. }
  by destruct (H r Hr).
Qed.

End LoopMore.

Section RunMore.
Context (P : Platform).

Lemma scan_trace_no_output (sk : PrivateKey P) l path :
  Forall (fun ev => touches path ev = false) (trace (scan_public_keys P sk l)).
Proof.
  induction l as [|q l IH]; [by constructor|].
  cbn [scan_public_keys].
  destruct (try_public_key_outcome P sk q) as (found & Hout & _).
  rewrite (bind_ok _ _ _ Hout). cbn [trace]. rewrite try_public_key_trace.
  constructor; [done|]. destruct found; [by constructor|done].
Qed.

Lemma infer_user_id_no_output path folder p :
  Forall (fun ev => touches p ev = false) (trace (infer_user_id P path folder)).
Proof.
  unfold infer_user_id.
  destruct (outcome (load_private_key P path)) as [sk|e] eqn:E.
  - rewrite (bind_ok _ _ _ E). cbn [trace]. rewrite bind_emit. cbn [trace].
    rewrite load_private_key_trace. do 2 (constructor; [done|]).
    apply scan_trace_no_output.
  - rewrite (bind_raise _ _ _ E). cbn [trace]. rewrite load_private_key_trace.
    by repeat constructor.
Qed.

Lemma process_response_files_setup_failure resp out rec priv pub e :
  makedirs P rec = Ok tt ->
  rglob P resp "*" <> [] ->
  outcome (infer_user_id P priv pub) = Raise e ->
  process_response_files P resp out rec priv pub
  = MkM ([EvMakedirs rec; EvRglob resp "*"] ++ trace (infer_user_id P priv pub))
        (Raise e).
Proof.
  intros Hmk Hne Hinfer. unfold process_response_files.
  rewrite bind_emit, Hmk, bind_lift_ok, bind_emit. cbn [trace outcome].
  destruct (rglob P resp "*") as [|r rs] eqn:Hfiles; [done|].
  by rewrite (bind_raise _ _ _ Hinfer).
Qed.

Lemma process_response_files_touches resp out rec priv pub path :
  Exists (fun ev => touches path ev = true)
         (trace (process_response_files P resp out rec priv pub)) ->
  exists r, In r (rglob P resp "*") /\ path = output_file_of rec r.
Proof.
  unfold process_response_files. rewrite bind_emit. cbn [trace].
  intros H. apply Exists_cons in H as [H|H]; [done|]. revert H.
  destruct (makedirs P rec) as [[]|e]; [rewrite bind_lift_ok|by intros ?%Exists_nil].
  rewrite bind_emit. cbn [trace].
  intros H. apply Exists_cons in H as [H|H]; [done|]. revert H.
  destruct (rglob P resp "*") as [|r rs] eqn:Hfiles.
  { intros H. apply Exists_cons in H as [H|H]; [done|]. by apply Exists_nil in H. }
  pose proof (infer_user_id_no_output priv pub path) as Hinf.
  destruct (outcome (infer_user_id P priv pub)) as [uid|e] eqn:Ei.
  2:{ rewrite (bind_raise _ _ _ Ei). cbn [trace]. intros H.
      apply Exists_exists in H as (ev & Hin & Hev).
      rewrite Forall_forall in Hinf. by rewrite (Hinf ev Hin) in Hev. }
  rewrite (bind_ok _ _ _ Ei). cbn [trace].
  intros [H|H]%Exists_app.
  { apply Exists_exists in H as (ev & Hin & Hev).
    rewrite Forall_forall in Hinf. by rewrite (Hinf ev Hin) in Hev. }
  revert H.
  destruct (outcome (load_private_key P priv)) as [sk|e] eqn:El.
  2:{ rewrite (bind_raise _ _ _ El). cbn [trace]. rewrite load_private_key_trace.
      intros H. apply Exists_cons in H as [H|H]; [done|]. by apply Exists_nil in H. }
  rewrite (bind_ok _ _ _ El). cbn [trace]. rewrite load_private_key_trace.
  intros H. apply Exists_cons in H as [H|H]; [done|]. cbn [app] in H.
  by apply process_records_from_touches in H.
Qed.

End RunMore.
End BatchMore.

(* ===================================================================== *)
(** * Further properties *)
(* ===================================================================== *)

Import MoreProps Fixture2.
Import ReconstructorMore ResolverMore CipherMore BatchMore.

(** X1. A text without placeholders.  When every placeholder of the mapping
    is non-empty and none occurs in the text, [reconstruct_text] returns
    the text unchanged. *)
Theorem reconstruct_text_without_placeholders t m :
  (forall p, In p (placeholders m) -> p <> "" /\ ~ occurs p t) ->
  reconstruct_text t m = t.
Proof. apply reconstruct_text_absent. Qed.

Lemma reconstruct_text_without_placeholders_witness :
  (forall p, In p (placeholders the_mapping) ->
     p <> "" /\ ~ occurs p "Nothing to restore here") /\
  reconstruct_text "Nothing to restore here" the_mapping = "Nothing to restore here".
Proof.
  assert (forall p, In p (placeholders the_mapping) ->
            p <> "" /\ ~ occurs p "Nothing to restore here") as H.
  { intros p [<-|[<-|[]]]; (split; [done|by apply contains_false]). }
  split; [exact H|].
  apply (reconstruct_text_without_placeholders _ _ H).
Defined.

(** X2. The empty text.  When every placeholder is non-empty, the empty
    text stays empty. *)
Theorem reconstruct_text_of_empty_text m :
  (forall p, In p (placeholders m) -> p <> "") ->
  reconstruct_text "" m = "".
Proof.
  intros H. apply reconstruct_text_absent. intros p Hp.
  split; [by apply H|]. intros ->%occurs_of_nil. by apply (H "").
Qed.

Lemma reconstruct_text_of_empty_text_witness :
  (forall p, In p (placeholders the_mapping) -> p <> "") /\
  reconstruct_text "" the_mapping = "".
Proof.
  assert (forall p, In p (placeholders the_mapping) -> p <> "") as H.
  { by intros p [<-|[<-|[]]]. }
  split; [exact H|]. apply (reconstruct_text_of_empty_text _ H).
Defined.

(** X3. Nothing is left to restore.  When no placeholder of the mapping
    overlaps an original value of it, the reconstructed text contains no
    placeholder of the mapping. *)
Theorem reconstruct_text_leaves_no_placeholder t m p :
  no_overlap m -> In p (placeholders m) ->
  ~ occurs p (reconstruct_text t m).
Proof.
  intros Hno Hp. apply reconstruct_text_free; [| |by right].
  - intros p' Hp' ->. unfold placeholders, originals in *.
    apply in_map_iff in Hp' as ([p1 o1] & Hfst & Hin). simpl in Hfst. subst p1.
    apply (Hno "" o1); [by apply in_map_iff; exists ("", o1)| |].
    + apply in_map_iff. by exists ("", o1).
    + left. apply occurs_nil_l.
  - intros o Ho. by apply Hno.
Qed.

Lemma reconstruct_text_leaves_no_placeholder_witness :
  no_overlap the_mapping /\ In "PERSON_1" (placeholders the_mapping) /\
  ~ occurs "PERSON_1" (reconstruct_text "PERSON_1 met PERSON_11 at ORG_1" the_mapping).
Proof.
  assert (no_overlap the_mapping) as H
    by (apply no_overlapb_spec; vm_compute; reflexivity).
  assert (In "PERSON_1" (placeholders the_mapping)) as Hin by (by left).
  split; [exact H|]. split; [exact Hin|].
  apply (reconstruct_text_leaves_no_placeholder _ _ _ H Hin).
Defined.

(** X4. Restored text is scanned again.  A later pair is applied to what an
    earlier pair put into the text: with [(p, q)] followed by [(q, r)] the
    text [p] becomes [r]. *)
Theorem reconstruct_text_rescans_restored_text p q r :
  p <> "" -> q <> "" ->
  reconstruct_text p [(p, q); (q, r)] = r.
Proof.
  intros Hp Hq. cbn [reconstruct_text]. by rewrite !replace_self.
Qed.

Lemma reconstruct_text_rescans_restored_text_witness :
  "PERSON_1" <> "" /\ "ORG_1" <> "" /\
  reconstruct_text "PERSON_1" [("PERSON_1", "ORG_1"); ("ORG_1", "Acme")] = "Acme".
Proof.
  split; [done|]. split; [done|].
  apply (reconstruct_text_rescans_restored_text "PERSON_1" "ORG_1" "Acme"); done.
Defined.

(** X5. Pairs that restore a placeholder to itself change nothing, on any
    text, the pair of two empty strings included. *)
Theorem reconstruct_text_identity_pairs t m :
  (forall po, In po m -> fst po = snd po) -> reconstruct_text t m = t.
Proof. apply reconstruct_text_same. Qed.

Lemma reconstruct_text_identity_pairs_witness :
  (forall po, In po [("aa", "aa"); ("", "")] -> fst po = snd po) /\
  reconstruct_text "aaa" [("aa", "aa"); ("", "")] = "aaa".
Proof.
  assert (forall po, In po [("aa", "aa"); ("", "")] -> fst po = snd po) as H.
  { by intros po [<-|[<-|[]]]. }
  split; [exact H|]. apply (reconstruct_text_identity_pairs _ _ H).
Defined.

(** X6. On the values of [json.load].  For a text that is a string and a
    mapping that is a list of two-element lists of strings, the loop over
    JSON values does not raise and returns the string computed by
    [reconstruct_text]. *)
Theorem reconstruct_text_on_json_values t m :
  reconstruct_text_dyn (PStr t) (mapping_val m) = Ok (PStr (reconstruct_text t m)).
Proof. apply reconstruct_text_dyn_typed. Qed.

(** X7. On other values.  A mapping that iterates to nothing returns the
    first argument as it is, a string or not.  A text that is not a string
    raises [AttributeError] at the first pair.  An item of three or more
    elements raises [ValueError].  A mapping given as an object is iterated
    by its keys: a key of two characters is unpacked into them, a key of
    one character raises [ValueError]. *)
Theorem reconstruct_text_on_other_values :
  (forall v mapping, py_iter mapping = Ok [] ->
     reconstruct_text_dyn v mapping = Ok v) /\
  (forall v p o rest,
     (forall s, v <> PStr s) ->
     reconstruct_text_dyn v (PList (PList [p; o] :: rest))
     = Raise (AttributeError
                ("'" +:+ type_name v +:+ "' object has no attribute 'replace'"))) /\
  (forall t a b c more rest,
     exists msg,
       reconstruct_text_dyn (PStr t) (PList (PList (a :: b :: c :: more) :: rest))
       = Raise (ValueError msg)) /\
  (forall t key c1 c2 v,
     chars key = [c1; c2] ->
     reconstruct_text_dyn (PStr t) (PDict [(key, v)])
     = Ok (PStr (replace t c1 c2))) /\
  (forall t key c v,
     chars key = [c] ->
     reconstruct_text_dyn (PStr t) (PDict [(key, v)])
     = Raise (ValueError "not enough values to unpack (expected 2, got 1)")).
Proof.
  split_and!.
  - intros v mapping H. unfold reconstruct_text_dyn. by rewrite H.
  - intros v p o rest Hv. unfold reconstruct_text_dyn. cbn.
    destruct v; try done. by destruct (Hv s).
  - intros. by eexists.
  - intros t key c1 c2 v H. unfold reconstruct_text_dyn.
    cbn [py_iter map fst mbind result_bind reconstruct_loop].
    unfold unpack_pair. cbn [py_iter]. by rewrite H.
  - intros t key c v H. unfold reconstruct_text_dyn.
    cbn [py_iter map fst mbind result_bind reconstruct_loop].
    unfold unpack_pair. cbn [py_iter]. by rewrite H.
Qed.

(** A key of two characters, one of them outside ASCII. *)
Lemma reconstruct_text_on_other_values_witness :
  chars "né" = ["n"; "é"] /\
  reconstruct_text_dyn (PStr "nn") (PDict [("né", PNone)]) = Ok (PStr "éé").
Proof.
  assert (chars "né" = ["n"; "é"]) as H by reflexivity.
  split; [exact H|].
  destruct reconstruct_text_on_other_values as (_ & _ & _ & Hpair & _).
  rewrite (Hpair "nn" "né" "n" "é" PNone H). reflexivity.
Defined.

(** X8. Unusable candidates are skipped.  A catalog file that cannot be
    read, that is not a public key, or whose key has no modulus does not
    change the result of the scan: it is the result for the catalog without
    that file. *)
Theorem unusable_candidates_are_skipped P (private_key : PrivateKey P) l1 q l2 :
  unusable_candidate P q ->
  outcome (scan_public_keys P private_key (l1 ++ q :: l2))
  = outcome (scan_public_keys P private_key (l1 ++ l2)).
Proof. intros H. by apply scan_skip, unusable_candidate_no_match. Qed.

Lemma unusable_candidates_are_skipped_witness :
  unusable_candidate platform notes_pem /\
  outcome (scan_public_keys platform alice_key [bob_pem; notes_pem; alice_pem])
  = outcome (scan_public_keys platform alice_key [bob_pem; alice_pem]).
Proof.
  assert (unusable_candidate platform notes_pem) as H.
  { right; left. exists "not a key", (ValueError "Unable to load PEM file.").
    split; reflexivity. }
  split; [exact H|].
  apply (unusable_candidates_are_skipped platform alice_key [bob_pem] notes_pem
           [alice_pem] H).
Defined.

(** X9. The scan stops at the first match.  [infer_user_id] loads the
    private key, lists the catalog, opens the candidates up to and
    including the first matching one and no candidate after it, and returns
    the stem of that one. *)
Theorem infer_user_id_stops_at_first_match P private_key_path public_keys_folder
    (private_key : PrivateKey P) l1 p l2 :
  outcome (load_private_key P private_key_path) = Ok private_key ->
  rglob P public_keys_folder "*.pem" = l1 ++ p :: l2 ->
  (forall q, In q l1 -> ~ candidate_matches P private_key q) ->
  candidate_matches P private_key p ->
  infer_user_id P private_key_path public_keys_folder
  = MkM (EvLoadPrivateKey private_key_path
         :: EvRglob public_keys_folder "*.pem"
         :: map (fun q => EvLoadPublicKey (path_str q)) (l1 ++ [p]))
        (Ok (stem p)).
Proof.
  intros Hload Hcat Hl1 Hp. rewrite (infer_user_id_eq P _ _ _ Hload), Hcat.
  by rewrite scan_trace_first_match, scan_first_match.
Qed.

Lemma infer_user_id_stops_at_first_match_witness :
  outcome (load_private_key platform "bob_private_key.pem") = Ok bob_key /\
  rglob platform "public_keys" "*.pem" = [] ++ bob_pem :: [notes_pem; carol_pem; alice_pem] /\
  infer_user_id platform "bob_private_key.pem" "public_keys"
  = MkM [EvLoadPrivateKey "bob_private_key.pem"; EvRglob "public_keys" "*.pem";
         EvLoadPublicKey "public_keys/bob.pem"] (Ok "bob").
Proof.
  split; [reflexivity|]. split; [reflexivity|].
  apply (infer_user_id_stops_at_first_match platform "bob_private_key.pem"
           "public_keys" bob_key [] bob_pem [notes_pem; carol_pem; alice_pem]
           eq_refl eq_refl).
  - intros q [].
  - apply (candidate_matches_by_trial platform bob_key bob_pem true); reflexivity.
Defined.

(** X10. Without the private key there is no scan.  When the private key
    file cannot be read or parsed, [load_private_key] raises that error,
    and [infer_user_id] raises it as well without listing the catalog. *)
Theorem infer_user_id_needs_the_private_key P private_key_path public_keys_folder e :
  read_file P private_key_path ≫= load_pem_private_key P = Raise e ->
  load_private_key P private_key_path
  = MkM [EvLoadPrivateKey private_key_path] (Raise e) /\
  infer_user_id P private_key_path public_keys_folder
  = MkM [EvLoadPrivateKey private_key_path] (Raise e).
Proof.
  intros H. assert (load_private_key P private_key_path
                    = MkM [EvLoadPrivateKey private_key_path] (Raise e)) as Hl.
  { by rewrite load_private_key_eq, H. }
  split; [done|]. unfold infer_user_id.
  rewrite (bind_raise _ _ e); by rewrite Hl.
Qed.

Lemma infer_user_id_needs_the_private_key_witness :
  read_file platform "missing.pem" ≫= load_pem_private_key platform
  = Raise (Exn "FileNotFoundError"
             "[Errno 2] No such file or directory: 'missing.pem'") /\
  infer_user_id platform "missing.pem" "public_keys"
  = MkM [EvLoadPrivateKey "missing.pem"]
        (Raise (Exn "FileNotFoundError"
                  "[Errno 2] No such file or directory: 'missing.pem'")).
Proof.
  split; [reflexivity|].
  apply (infer_user_id_needs_the_private_key platform "missing.pem" "public_keys").
  reflexivity.
Defined.

(** X11. A private key without a modulus matches nothing.  When the
    comparison cannot read a modulus from the private key, every candidate
    is opened and skipped, and [infer_user_id] raises the error of a
    catalog without a match. *)
Theorem private_key_without_modulus_matches_nothing P private_key_path
    public_keys_folder (private_key : PrivateKey P) e :
  outcome (load_private_key P private_key_path) = Ok private_key ->
  private_modulus P private_key = Raise e ->
  infer_user_id P private_key_path public_keys_folder
  = MkM (EvLoadPrivateKey private_key_path
         :: EvRglob public_keys_folder "*.pem"
         :: map (fun q => EvLoadPublicKey (path_str q))
                (rglob P public_keys_folder "*.pem"))
        (Raise no_matching_public_key).
Proof.
  intros Hload Hmod. rewrite (infer_user_id_eq P _ _ _ Hload).
  rewrite scan_trace_no_match, scan_no_match; [done|..];
    intros q _; by eapply no_modulus_no_match.
Qed.

Lemma private_key_without_modulus_matches_nothing_witness :
  outcome (load_private_key platform2 "ed_private_key.pem") = Ok Ed25519Key /\
  private_modulus platform2 Ed25519Key
  = Raise (AttributeError
             "'Ed25519PrivateKey' object has no attribute 'private_numbers'") /\
  infer_user_id platform2 "ed_private_key.pem" "public_keys"
  = MkM [EvLoadPrivateKey "ed_private_key.pem"; EvRglob "public_keys" "*.pem";
         EvLoadPublicKey "public_keys/bob.pem";
         EvLoadPublicKey "public_keys/notes.pem";
         EvLoadPublicKey "public_keys/carol.pem";
         EvLoadPublicKey "public_keys/alice.pem"]
        (Raise no_matching_public_key).
Proof.
  split; [reflexivity|]. split; [reflexivity|].
  apply (private_key_without_modulus_matches_nothing platform2
           "ed_private_key.pem" "public_keys" Ed25519Key
           (AttributeError
              "'Ed25519PrivateKey' object has no attribute 'private_numbers'")
           eq_refl eq_refl).
Defined.

(** X12. Only the identity's slot is read.  Two envelopes whose
    [encrypted_aes_keys] are mappings with the same slot for the identity
    and whose [iv] and [encrypted_data] agree decrypt alike, whatever the
    slots of other identities and other fields are. *)
Theorem hybrid_decrypt_reads_only_its_slot P package1 package2
    (private_key : PrivateKey P) user_id keys1 keys2 :
  subscript package1 "encrypted_aes_keys" = Ok (PDict keys1) ->
  subscript package2 "encrypted_aes_keys" = Ok (PDict keys2) ->
  dict_get user_id keys1 = dict_get user_id keys2 ->
  subscript package1 "iv" = subscript package2 "iv" ->
  subscript package1 "encrypted_data" = subscript package2 "encrypted_data" ->
  hybrid_decrypt P package1 private_key user_id
  = hybrid_decrypt P package2 private_key user_id.
Proof.
  intros H1 H2 Hslot Hiv Hdata.
  destruct (dict_get user_id keys1) as [wrapped|] eqn:E1.
  - assert (has_slot package1 user_id wrapped) as Hs1 by (by exists keys1).
    assert (has_slot package2 user_id wrapped) as Hs2 by (by exists keys2).
    rewrite (hybrid_decrypt_present P _ _ _ _ Hs1).
    rewrite (hybrid_decrypt_present P _ _ _ _ Hs2).
    rewrite (unwrap_aes_key_present P _ _ _ _ Hs1).
    rewrite (unwrap_aes_key_present P _ _ _ _ Hs2).
    destruct (b64decode_val P wrapped ≫= rsa_oaep_decrypt P private_key)
      as [k|e]; [|done].
    rewrite !result_bind_ok. by apply decrypt_payload_fields.
  - rewrite !hybrid_decrypt_absent; [done|by exists keys2|by exists keys1].
Qed.

Lemma hybrid_decrypt_reads_only_its_slot_witness :
  let other :=
    PDict [ ("note", PStr "for alice only");
            ("encrypted_data", PStr "REFUQQ==");
            ("encrypted_aes_keys", PDict [("alice", PStr "QUxJQ0U=")]);
            ("iv", PStr "SVY=") ] in
  hybrid_decrypt platform other alice_key "alice"
  = hybrid_decrypt platform good_envelope alice_key "alice" /\
  hybrid_decrypt platform good_envelope alice_key "alice"
  = Ok (mapping_val the_mapping).
Proof.
  intros other. split; [|reflexivity].
  apply (hybrid_decrypt_reads_only_its_slot platform other good_envelope alice_key
           "alice" [("alice", PStr "QUxJQ0U=")]
           [("alice", PStr "QUxJQ0U="); ("bob", PStr "Qk9C")]); reflexivity.
Defined.

(** X13. The check is a membership test.  When [encrypted_aes_keys] is a
    list that contains the identity, or a string in which it occurs, the
    check passes and the lookup of the slot raises [TypeError]; when the
    list or string does not contain it, the missing-identity error is
    raised. *)
Theorem hybrid_decrypt_needs_a_mapping P encrypted_package
    (private_key : PrivateKey P) user_id :
  (forall items,
     subscript encrypted_package "encrypted_aes_keys" = Ok (PList items) ->
     In (PStr user_id) items ->
     exists msg, hybrid_decrypt P encrypted_package private_key user_id
                 = Raise (TypeError msg)) /\
  (forall items,
     subscript encrypted_package "encrypted_aes_keys" = Ok (PList items) ->
     ~ In (PStr user_id) items ->
     hybrid_decrypt P encrypted_package private_key user_id
     = Raise (missing_aes_key user_id)) /\
  (forall s,
     subscript encrypted_package "encrypted_aes_keys" = Ok (PStr s) ->
     occurs user_id s ->
     exists msg, hybrid_decrypt P encrypted_package private_key user_id
                 = Raise (TypeError msg)) /\
  (forall s,
     subscript encrypted_package "encrypted_aes_keys" = Ok (PStr s) ->
     ~ occurs user_id s ->
     hybrid_decrypt P encrypted_package private_key user_id
     = Raise (missing_aes_key user_id)).
Proof.
  unfold hybrid_decrypt. split_and!.
  - intros items -> Hin%existsb_is_str. rewrite !result_bind_ok. cbn [py_in].
    rewrite Hin. by eexists.
  - intros items -> Hin. rewrite !result_bind_ok. cbn [py_in].
    destruct (existsb (is_str user_id) items) eqn:E; [|done].
    by apply existsb_is_str in E.
  - intros s -> Hin%contains_spec. rewrite !result_bind_ok. cbn [py_in].
    rewrite Hin. by eexists.
  - intros s -> Hin%contains_false. rewrite !result_bind_ok. cbn [py_in].
    rewrite Hin. reflexivity.
Qed.

Lemma hybrid_decrypt_needs_a_mapping_witness :
  let package := PDict [("encrypted_aes_keys", PList [PStr "bob"; PStr "alice"])] in
  subscript package "encrypted_aes_keys" = Ok (PList [PStr "bob"; PStr "alice"]) /\
  In (PStr "alice") [PStr "bob"; PStr "alice"] /\
  exists msg, hybrid_decrypt platform package alice_key "alice"
              = Raise (TypeError msg).
Proof.
  intros package.
  assert (In (PStr "alice") [PStr "bob"; PStr "alice"]) as Hin by (right; by left).
  split; [reflexivity|]. split; [exact Hin|].
  destruct (hybrid_decrypt_needs_a_mapping platform package alice_key "alice")
    as (H & _).
  apply (H [PStr "bob"; PStr "alice"] eq_refl Hin).
Defined.

(** X14. Missing fields.  An envelope without [encrypted_aes_keys] raises
    [KeyError] for that name.  An envelope without [iv] raises [KeyError]
    for [iv] once the AES key is unwrapped, and one without
    [encrypted_data] raises [KeyError] for it once [iv] is decoded.  Not
    before: when the key cannot be unwrapped, or [iv] cannot be decoded,
    that error is raised, whatever else is missing. *)
Theorem hybrid_decrypt_on_missing_fields P (private_key : PrivateKey P) user_id fields :
  (dict_get "encrypted_aes_keys" fields = None ->
   hybrid_decrypt P (PDict fields) private_key user_id
   = Raise (KeyError "encrypted_aes_keys")) /\
  (forall wrapped aes_key,
     has_slot (PDict fields) user_id wrapped ->
     unwrap_aes_key P (PDict fields) private_key user_id = Ok aes_key ->
     dict_get "iv" fields = None ->
     hybrid_decrypt P (PDict fields) private_key user_id = Raise (KeyError "iv")) /\
  (forall wrapped aes_key,
     has_slot (PDict fields) user_id wrapped ->
     unwrap_aes_key P (PDict fields) private_key user_id = Ok aes_key ->
     dict_get "encrypted_data" fields = None ->
     forall iv_field iv, dict_get "iv" fields = Some iv_field ->
       b64decode_val P iv_field = Ok iv ->
       hybrid_decrypt P (PDict fields) private_key user_id
       = Raise (KeyError "encrypted_data")) /\
  (forall wrapped e,
     has_slot (PDict fields) user_id wrapped ->
     unwrap_aes_key P (PDict fields) private_key user_id = Raise e ->
     hybrid_decrypt P (PDict fields) private_key user_id = Raise e) /\
  (forall wrapped aes_key iv_field e,
     has_slot (PDict fields) user_id wrapped ->
     unwrap_aes_key P (PDict fields) private_key user_id = Ok aes_key ->
     dict_get "iv" fields = Some iv_field ->
     b64decode_val P iv_field = Raise e ->
     hybrid_decrypt P (PDict fields) private_key user_id = Raise e).
Proof.
  split_and!.
  - intros H. unfold hybrid_decrypt. cbn [subscript]. by rewrite H.
  - intros wrapped k Hslot Hk Hiv.
    rewrite (hybrid_decrypt_present P _ _ _ _ Hslot), Hk, result_bind_ok.
    unfold decrypt_payload. cbn [subscript]. by rewrite Hiv.
  - intros wrapped k Hslot Hk Hdata ivf iv Hiv Hb.
    rewrite (hybrid_decrypt_present P _ _ _ _ Hslot), Hk, result_bind_ok.
    unfold decrypt_payload. cbn [subscript].
    by rewrite Hiv, result_bind_ok, Hb, result_bind_ok, Hdata.
  - intros wrapped e Hslot Hk.
    by rewrite (hybrid_decrypt_present P _ _ _ _ Hslot), Hk.
  - intros wrapped k ivf e Hslot Hk Hiv Hb.
    rewrite (hybrid_decrypt_present P _ _ _ _ Hslot), Hk, result_bind_ok.
    unfold decrypt_payload. cbn [subscript].
    by rewrite Hiv, result_bind_ok, Hb.
Qed.

Lemma hybrid_decrypt_on_missing_fields_witness :
  let fields := [("encrypted_aes_keys", PDict [("alice", PStr "QUxJQ0U=")]);
                 ("encrypted_data", PStr "REFUQQ==")] in
  has_slot (PDict fields) "alice" (PStr "QUxJQ0U=") /\
  unwrap_aes_key platform (PDict fields) alice_key "alice" = Ok (b "K1") /\
  dict_get "iv" fields = None /\
  hybrid_decrypt platform (PDict fields) alice_key "alice" = Raise (KeyError "iv").
Proof.
  intros fields.
  assert (has_slot (PDict fields) "alice" (PStr "QUxJQ0U=")) as Hs.
  { exists [("alice", PStr "QUxJQ0U=")]. split; reflexivity. }
  split; [exact Hs|]. split; [reflexivity|]. split; [reflexivity|].
  destruct (hybrid_decrypt_on_missing_fields platform alice_key "alice" fields)
    as (_ & H & _).
  apply (H (PStr "QUxJQ0U=") (b "K1") Hs eq_refl eq_refl).
Defined.

(** X15. A [.json] record.  When the file is read and parsed, has the two
    fields with a string text, the envelope decrypts to a mapping, the
    output file can be opened and the reconstructed text can be encoded,
    the iteration reads the file, writes the reconstructed text to the
    record's output file and prints that it was saved. *)
Theorem json_record_is_reconstructed P output_folder reconstructed_folder
    (private_key : PrivateKey P) user_id r data doc t envelope m encoded :
  suffix r = ".json" ->
  read_file P (path_str r) = Ok data ->
  json_loads P data = Ok doc ->
  subscript doc "anonymized_text" = Ok (PStr t) ->
  subscript doc "encrypted_mapping" = Ok envelope ->
  hybrid_decrypt P envelope private_key user_id = Ok (mapping_val m) ->
  open_for_writing P (output_file_of reconstructed_folder r) = Ok tt ->
  utf8_encode P (reconstruct_text t m) = Ok encoded ->
  process_one P output_folder reconstructed_folder private_key user_id r
  = MkM [EvRead (path_str r);
         EvOpenWrite (output_file_of reconstructed_folder r);
         EvWrite (output_file_of reconstructed_folder r) (reconstruct_text t m);
         EvPrint ("Reconstructed text saved to "
                  +:+ output_file_of reconstructed_folder r)]
        (Ok tt).
Proof.
  intros Hsuf Hread Hjson Htext Henv Hdec Hopen Henc.
  apply process_one_of_ok.
  rewrite (process_record_json P _ _ _ _ r _ _ _ _ _ _ Hsuf Hread Hjson Htext Henv
             Hdec (reconstruct_text_dyn_typed t m)).
  by rewrite (save_reconstructed_str P _ _ _ _ Hopen Henc).
Qed.

(** The fixture, with the reconstructed folder spelled with a slash at its
    end. *)
Lemma json_record_is_reconstructed_witness :
  process_one platform "output" "reconstructed/" alice_key "alice" r1
  = MkM [EvRead "response/r1.json";
         EvOpenWrite "reconstructed/r1_reconstructed.txt";
         EvWrite "reconstructed/r1_reconstructed.txt" "Hello Alice, from Acme";
         EvPrint "Reconstructed text saved to reconstructed/r1_reconstructed.txt"]
        (Ok tt).
Proof.
  apply (json_record_is_reconstructed platform "output" "reconstructed/" alice_key
           "alice" r1 "json:r1"
           (PDict [ ("anonymized_text", PStr "Hello PERSON_1, from ORG_1");
                    ("encrypted_mapping", good_envelope) ])
           "Hello PERSON_1, from ORG_1" good_envelope the_mapping
           (b "Hello Alice, from Acme"));
    reflexivity.
Defined.

(** X16. A [.txt] record.  The text is that of the file, the envelope that
    of [<output_folder>/<stem>_processed.json]; when every step succeeds
    the iteration reads both files, writes the reconstructed text to the
    record's output file and prints that it was saved. *)
Theorem txt_record_uses_its_companion_mapping P output_folder reconstructed_folder
    (private_key : PrivateKey P) user_id r reworked data doc envelope m encoded :
  suffix r = ".txt" ->
  read_file P (path_str r) = Ok reworked ->
  path_exists P (mapping_file_of output_folder r) = true ->
  read_file P (mapping_file_of output_folder r) = Ok data ->
  json_loads P data = Ok doc ->
  subscript doc "encrypted_mapping" = Ok envelope ->
  hybrid_decrypt P envelope private_key user_id = Ok (mapping_val m) ->
  open_for_writing P (output_file_of reconstructed_folder r) = Ok tt ->
  utf8_encode P (reconstruct_text reworked m) = Ok encoded ->
  process_one P output_folder reconstructed_folder private_key user_id r
  = MkM [EvRead (path_str r);
         EvExists (mapping_file_of output_folder r);
         EvRead (mapping_file_of output_folder r);
         EvOpenWrite (output_file_of reconstructed_folder r);
         EvWrite (output_file_of reconstructed_folder r)
           (reconstruct_text reworked m);
         EvPrint ("Reconstructed text saved to "
                  +:+ output_file_of reconstructed_folder r)]
        (Ok tt).
Proof.
  intros Hsuf Hread Hex Hmap Hjson Henv Hdec Hopen Henc.
  apply process_one_of_ok.
  rewrite (process_record_txt P _ _ _ _ r _ _ _ _ _ _ Hsuf Hread Hex Hmap Hjson
             Henv Hdec (reconstruct_text_dyn_typed reworked m)).
  by rewrite (save_reconstructed_str P _ _ _ _ Hopen Henc).
Qed.

(** The fixture, with the output folder spelled with a slash at its end. *)
Lemma txt_record_uses_its_companion_mapping_witness :
  process_one platform "output/" "reconstructed" alice_key "alice" r3
  = MkM [EvRead "response/r3.txt";
         EvExists "output/r3_processed.json";
         EvRead "output/r3_processed.json";
         EvOpenWrite "reconstructed/r3_reconstructed.txt";
         EvWrite "reconstructed/r3_reconstructed.txt" "Dear Alice of Acme";
         EvPrint "Reconstructed text saved to reconstructed/r3_reconstructed.txt"]
        (Ok tt).
Proof.
  apply (txt_record_uses_its_companion_mapping platform "output/" "reconstructed"
           alice_key "alice" r3 "Dear PERSON_1 of ORG_1" "json:m3"
           (PDict [("encrypted_mapping", good_envelope)]) good_envelope
           the_mapping (b "Dear Alice of Acme"));
    reflexivity.
Defined.

(** X17. A [.txt] record without its mapping file is skipped: the file is
    read, the mapping file is looked for, the notice is printed, and
    nothing is decrypted or written. *)
Theorem txt_record_without_mapping_is_skipped P output_folder reconstructed_folder
    (private_key : PrivateKey P) user_id r reworked :
  suffix r = ".txt" ->
  read_file P (path_str r) = Ok reworked ->
  path_exists P (mapping_file_of output_folder r) = false ->
  process_one P output_folder reconstructed_folder private_key user_id r
  = MkM [EvRead (path_str r);
         EvExists (mapping_file_of output_folder r);
         EvPrint ("Mapping file not found for " +:+ path_str r +:+ ". Skipping...")]
        (Ok tt).
Proof.
  intros Hsuf Hread Hex. apply process_one_of_ok.
  unfold process_record. rewrite Hsuf.
  cbn [String.eqb Ascii.eqb Bool.eqb].
  rewrite bind_emit, Hread, bind_lift_ok. cbv zeta. by rewrite bind_emit, Hex.
Qed.

(** The fixture, with the current directory as output folder: the mapping
    file looked for is the relative [r3_processed.json]. *)
Lemma txt_record_without_mapping_is_skipped_witness :
  process_one platform "" "reconstructed" alice_key "alice" r3
  = MkM [EvRead "response/r3.txt";
         EvExists "r3_processed.json";
         EvPrint "Mapping file not found for response/r3.txt. Skipping..."]
        (Ok tt).
Proof.
  apply (txt_record_without_mapping_is_skipped platform "" "reconstructed"
           alice_key "alice" r3 "Dear PERSON_1 of ORG_1");
    reflexivity.
Defined.

(** X18. Other paths are not opened.  For a suffix other than [.json] and
    [.txt] the iteration prints the notice and does nothing else. *)
Theorem other_file_types_are_not_opened P output_folder reconstructed_folder
    (private_key : PrivateKey P) user_id r :
  suffix r <> ".json" -> suffix r <> ".txt" ->
  process_one P output_folder reconstructed_folder private_key user_id r
  = MkM [EvPrint ("Unsupported file type: " +:+ path_str r +:+ ". Skipping...")]
        (Ok tt).
Proof.
  intros H1%String.eqb_neq H2%String.eqb_neq. apply process_one_of_ok.
  unfold process_record. by rewrite H1, H2.
Qed.

Lemma other_file_types_are_not_opened_witness :
  process_one platform "output" "reconstructed" alice_key "alice"
    (MkPath "response/drafts" "drafts" "")
  = MkM [EvPrint "Unsupported file type: response/drafts. Skipping..."] (Ok tt).
Proof.
  apply (other_file_types_are_not_opened platform "output" "reconstructed"
           alice_key "alice" (MkPath "response/drafts" "drafts" "")); done.
Defined.

(** X19. One line per record.  The loop prints exactly one line for each
    listed path and completes at most one write for it; completed writes
    and error lines together do not exceed the number of paths. *)
Theorem every_record_is_reported_once P output_folder reconstructed_folder
    (private_key : PrivateKey P) user_id response_files :
  let run := process_records P output_folder reconstructed_folder private_key
               user_id response_files in
  length (printed (trace run)) = length response_files /\
  length (saved (trace run)) <= length response_files /\
  length (saved (trace run)) + length (reported_errors (trace run))
  <= length response_files.
Proof.
  intros run. subst run. unfold process_records.
  destruct (process_records_from_counts P output_folder reconstructed_folder
              private_key user_id response_files ∅) as [Hp Hs].
  split; [done|]. split; [done|].
  apply process_records_from_saved_or_error.
Qed.

(** X20. Only output files are written.  Whatever happens in a run, a file
    it created or wrote is the output file of one of the listed response
    paths. *)
Theorem only_output_files_are_written P response_folder output_folder
    reconstructed_folder private_key_path public_keys_folder path :
  is_Some (store (trace (process_response_files P response_folder output_folder
                           reconstructed_folder private_key_path
                           public_keys_folder)) !! path) ->
  exists r, In r (rglob P response_folder "*") /\
            path = output_file_of reconstructed_folder r.
Proof.
  intros [H|H]%store_lookup_touched.
  - rewrite lookup_empty in H. by destruct H.
  - by apply process_response_files_touches in H.
Qed.

(** The fixture run, with the reconstructed folder spelled [./reconstructed/]. *)
Lemma only_output_files_are_written_witness :
  is_Some (store (trace (process_response_files platform "response" "output"
                           "./reconstructed/" "private_key.pem" "public_keys"))
           !! "reconstructed/r3_reconstructed.txt") /\
  exists r, In r (rglob platform "response" "*") /\
            "reconstructed/r3_reconstructed.txt"
            = output_file_of "./reconstructed/" r.
Proof.
  assert (is_Some (store (trace (process_response_files platform "response"
                                   "output" "./reconstructed/" "private_key.pem"
                                   "public_keys"))
                   !! "reconstructed/r3_reconstructed.txt")) as H.
  { exists "Dear Alice of Acme". by vm_compute. }
  split; [exact H|].
  apply (only_output_files_are_written platform "response" "output"
           "./reconstructed/" "private_key.pem" "public_keys" _ H).
Defined.

(** X21. Set-up failures abort the run.  The error of [os.makedirs] is
    raised before the response folder is listed.  On a non-empty listing
    the error of [infer_user_id] is raised by the run, which then has
    printed nothing and written nothing. *)
Theorem setup_failures_abort_the_run P response_folder output_folder
    reconstructed_folder private_key_path public_keys_folder e :
  let run := process_response_files P response_folder output_folder
               reconstructed_folder private_key_path public_keys_folder in
  (makedirs P reconstructed_folder = Raise e ->
   run = MkM [EvMakedirs reconstructed_folder] (Raise e)) /\
  (makedirs P reconstructed_folder = Ok tt ->
   rglob P response_folder "*" <> [] ->
   outcome (infer_user_id P private_key_path public_keys_folder) = Raise e ->
   run = MkM ([EvMakedirs reconstructed_folder; EvRglob response_folder "*"]
              ++ trace (infer_user_id P private_key_path public_keys_folder))
             (Raise e) /\
   printed (trace run) = [] /\
   store (trace run) = ∅).
Proof.
  intros run. subst run. split.
  - intros Hmk. unfold process_response_files.
    by rewrite bind_emit, Hmk, bind_lift_raise.
  - intros Hmk Hne Hinfer.
    rewrite (process_response_files_setup_failure P _ _ _ _ _ _ Hmk Hne Hinfer).
    split; [done|]. cbn [trace app].
    assert (Forall (fun ev => is_key_load ev = true \/ is_catalog_scan ev = true
                              \/ exists p, ev = EvLoadPublicKey p)
                   (trace (infer_user_id P private_key_path public_keys_folder)))
      as Hev.
    { unfold infer_user_id.
      destruct (outcome (load_private_key P private_key_path)) as [sk|e'] eqn:E.
      - rewrite (bind_ok _ _ _ E). cbn [trace]. rewrite bind_emit. cbn [trace].
        rewrite load_private_key_trace. constructor; [by left|].
        constructor; [right; by left|].
        clear. induction (rglob P public_keys_folder "*.pem") as [|q l IH];
          [by constructor|].
        cbn [scan_public_keys].
        destruct (try_public_key_outcome P sk q) as (found & Hout & _).
        rewrite (bind_ok _ _ _ Hout). cbn [trace]. rewrite try_public_key_trace.
        constructor; [right; right; by eexists|].
        destruct found; [by constructor|done].
      - rewrite (bind_raise _ _ _ E). cbn [trace]. rewrite load_private_key_trace.
        constructor; [by left|done]. }
    split.
    + unfold printed. cbn [omap list_omap].
      induction Hev as [|ev t Hev _ IH]; [done|].
      cbn [omap list_omap]. destruct Hev as [Hev|[Hev|[p ->]]]; [| |done];
        by destruct ev.
    + unfold store. cbn [foldl apply_event].
      induction Hev as [|ev t Hev _ IH]; [done|].
      cbn [foldl]. destruct Hev as [Hev|[Hev|[p ->]]]; [| |done];
        by destruct ev.
Qed.

Lemma setup_failures_abort_the_run_witness :
  makedirs platform "reconstructed" = Ok tt /\
  rglob platform "response" "*" <> [] /\
  outcome (infer_user_id platform "private_key.pem" "no_keys")
  = Raise no_matching_public_key /\
  process_response_files platform "response" "output" "reconstructed"
    "private_key.pem" "no_keys"
  = MkM [EvMakedirs "reconstructed"; EvRglob "response" "*";
         EvLoadPrivateKey "private_key.pem"; EvRglob "no_keys" "*.pem"]
        (Raise no_matching_public_key).
Proof.
  assert (rglob platform "response" "*" <> []) as Hne by (by vm_compute).
  split; [reflexivity|]. split; [exact Hne|]. split; [reflexivity|].
  destruct (setup_failures_abort_the_run platform "response" "output"
              "reconstructed" "private_key.pem" "no_keys"
              no_matching_public_key) as [_ H].
  destruct (H eq_refl Hne eq_refl) as [-> _]. reflexivity.
Defined.

(** X22. Equal base names share one output file, and the last text wins.
    The output file is named by the stem alone, so every record with the
    stem of [r] has the output file of [r].  When [r], after the records
    before it, saves a text, and no later record has its output file, the
    file holds that text after the loop, whatever the earlier records wrote
    to it. *)
Theorem same_base_name_overwrites P output_folder reconstructed_folder
    (private_key : PrivateKey P) user_id before r later o text :
  saved (trace (record_after P output_folder reconstructed_folder private_key
                  user_id before r)) = [(o, text)] ->
  (forall r', In r' later ->
     output_file_of reconstructed_folder r' <> output_file_of reconstructed_folder r) ->
  o = output_file_of reconstructed_folder r /\
  (forall r', stem r' = stem r -> output_file_of reconstructed_folder r' = o) /\
  store (trace (process_records P output_folder reconstructed_folder
                  private_key user_id (before ++ r :: later))) !! o
  = Some text.
Proof.
  intros Hs Hlater. unfold record_after in Hs.
  set (fs := store (trace (process_records P output_folder reconstructed_folder
                             private_key user_id before))) in *.
  destruct (store_after_saved_record (written_over fs P) _ _ _ _ r o text fs Hs)
    as [Hstore ->].
  split; [done|]. split.
  { intros r' Hstem. unfold output_file_of. by rewrite Hstem. }
  rewrite process_records_app. fold fs. rewrite process_records_from_cons.
  cbn [trace]. unfold store. rewrite !foldl_app.
  fold (store (trace (process_records P output_folder reconstructed_folder
                        private_key user_id before))). fold fs.
  by rewrite process_records_from_untouched.
Qed.

(** The fixture: [r1.json], then [sub/r1.json], which empties the file,
    then [r1.txt], and [r3.txt] after it. *)
Lemma same_base_name_overwrites_witness :
  saved (trace (record_after platform2 "output" "reconstructed" alice_key "alice"
                  [r1; sub_r1] r1_txt))
  = [("reconstructed/r1_reconstructed.txt", "Dear Alice")] /\
  (forall r', In r' [r3] ->
     output_file_of "reconstructed" r' <> output_file_of "reconstructed" r1_txt) /\
  store (trace (process_records platform2 "output" "reconstructed" alice_key
                  "alice" ([r1; sub_r1] ++ r1_txt :: [r3])))
    !! "reconstructed/r1_reconstructed.txt"
  = Some "Dear Alice".
Proof.
  assert (saved (trace (record_after platform2 "output" "reconstructed" alice_key
                          "alice" [r1; sub_r1] r1_txt))
          = [("reconstructed/r1_reconstructed.txt", "Dear Alice")]) as Hs
    by (vm_compute; reflexivity).
  assert (forall r', In r' [r3] ->
            output_file_of "reconstructed" r'
            <> output_file_of "reconstructed" r1_txt) as Hlater.
  { intros r' [<-|[]]. by vm_compute. }
  split; [exact Hs|]. split; [exact Hlater|].
  apply (same_base_name_overwrites platform2 "output" "reconstructed" alice_key
           "alice" [r1; sub_r1] r1_txt [r3] _ _ Hs Hlater).
Defined.


